(** * The MCP client's query loop (src/mcp-client/client.py)

    A shallow embedding of [MCPClient.process_query] and of the part of
    [MCPClient.chat_loop] that drives it.  The three remote collaborators
    ([session.list_tools], [anthropic.messages.create], [session.call_tool])
    are functions on an explicit world state that either return a value or
    raise; every remote call is recorded, with its arguments and its result,
    in the list of events of a run. *)

From Stdlib Require Import List String Ascii Bool Arith Lia.
Import ListNotations.
Open Scope string_scope.
Open Scope list_scope.

(** ** Exceptions *)

(** An instance of Python's [Exception]: its class name and [str(e)]. *)
Record Exn : Type := mkExn { exn_class : string; exn_str : string }.

(** [response.content[0]] on an empty list. *)
Definition IndexError : Exn :=
  mkExn "IndexError" "list index out of range".

(** [.text] on an object of class [cls] that has no such attribute. *)
Definition AttributeError (cls : string) : Exn :=
  mkExn "AttributeError" ("'" ++ cls ++ "' object has no attribute 'text'")%string.

(** ** Data *)

Inductive Role : Type := user | assistant.

Section Payloads.

(** The payloads the client only passes along: the [input] object of a
    tool_use block, the [content] of a tool result and the [inputSchema]
    of a tool. *)
Variables ToolInput Content Schema : Type.

(** A content block of a model response.  The SDK's union is discriminated
    by [type]: ['text'] for a [TextBlock], ['tool_use'] for a
    [ToolUseBlock]; [OtherBlock cls] is a block of any other class (the
    loop has no [else] branch for it). *)
Inductive ContentBlock : Type :=
| TextBlock (text : string)
| ToolUseBlock (id : string) (name : string) (input : ToolInput)
| OtherBlock (cls : string).

(** [response.content] of [messages.create]. *)
Record Response : Type := mkResponse { resp_content : list ContentBlock }.

(** An entry of [response.tools] of [list_tools]. *)
Record Tool : Type := mkTool {
  tool_name : string;
  tool_description : option string;
  tool_inputSchema : Schema }.

(** An entry of [available_tools]. *)
Record ToolSpec : Type := mkToolSpec {
  spec_name : string;
  spec_description : option string;
  spec_input_schema : Schema }.

(** The result of [call_tool]; the client reads [content] only. *)
Record CallToolResult : Type := mkCallToolResult {
  result_content : Content;
  result_isError : bool }.

(** The ["content"] of a message: a string, or a tool result's content. *)
Inductive MessageContent : Type :=
| MsgText (s : string)
| MsgToolResult (c : Content).

Record Message : Type := mkMessage {
  msg_role : Role;
  msg_content : MessageContent }.

(** The keyword arguments of [messages.create]; [req_tools] is [None]
    when the call passes no [tools]. *)
Record CreateRequest : Type := mkCreateRequest {
  req_model : string;
  req_max_tokens : nat;
  req_messages : list Message;
  req_tools : option (list ToolSpec) }.

(** One remote call, as made and as answered. *)
Inductive Event : Type :=
| EvListTools (r : Exn + list Tool)
| EvCreate (req : CreateRequest) (r : Exn + Response)
| EvCallTool (name : string) (input : ToolInput) (r : Exn + CallToolResult).

End Payloads.

Arguments TextBlock {ToolInput} text.
Arguments ToolUseBlock {ToolInput} id name input.
Arguments OtherBlock {ToolInput} cls.
Arguments mkResponse {ToolInput} resp_content.
Arguments resp_content {ToolInput} r.
Arguments mkTool {Schema} tool_name tool_description tool_inputSchema.
Arguments tool_name {Schema} t.
Arguments tool_description {Schema} t.
Arguments tool_inputSchema {Schema} t.
Arguments mkToolSpec {Schema} spec_name spec_description spec_input_schema.
Arguments spec_name {Schema} t.
Arguments spec_description {Schema} t.
Arguments spec_input_schema {Schema} t.
Arguments mkCallToolResult {Content} result_content result_isError.
Arguments result_content {Content} c.
Arguments result_isError {Content} c.
Arguments MsgText {Content} s.
Arguments MsgToolResult {Content} c.
Arguments mkMessage {Content} msg_role msg_content.
Arguments msg_role {Content} m.
Arguments msg_content {Content} m.
Arguments mkCreateRequest {Content Schema} req_model req_max_tokens req_messages req_tools.
Arguments req_model {Content Schema} c.
Arguments req_max_tokens {Content Schema} c.
Arguments req_messages {Content Schema} c.
Arguments req_tools {Content Schema} c.
Arguments EvListTools {ToolInput Content Schema} r.
Arguments EvCreate {ToolInput Content Schema} req r.
Arguments EvCallTool {ToolInput Content Schema} name input r.

(** ** Strings *)

(** The newline of ["\n".join] and of the printed lines. *)
Definition newline : string := String (ascii_of_nat 10) EmptyString.

(** Python's [sep.join(l)]. *)
Definition join (sep : string) (l : list string) : string := String.concat sep l.

(** The truth value of a string: false for the empty one. *)
Definition truthy (s : string) : bool :=
  match s with EmptyString => false | String _ _ => true end.

(** [str.lower] on one byte: only A-Z change.  On UTF-8 text this decides
    [query.lower() == 'quit'] as Python does: no character outside ASCII
    lowers to one of q, u, i, t. *)
Definition lower_ascii (c : ascii) : ascii :=
  let n := nat_of_ascii c in
  if ((65 <=? n) && (n <=? 90))%nat then ascii_of_nat (n + 32) else c.

Fixpoint lower (s : string) : string :=
  match s with
  | EmptyString => EmptyString
  | String c s' => String (lower_ascii c) (lower s')
  end.

(** ** Runs *)

Section Engine.

Context {ToolInput Content Schema W : Type}.

(** Python's [str()] of a tool_use block's [input], as the f-string of the
    marker line renders it. *)
Variable input_str : ToolInput -> string.

Local Abbreviation Block := (ContentBlock ToolInput).
Local Abbreviation Resp := (Response ToolInput).
Local Abbreviation Msg := (Message Content).
Local Abbreviation Req := (CreateRequest Content Schema).
Local Abbreviation Ev := (Event ToolInput Content Schema).

(** The remote collaborators: each call reads and updates the world and
    returns a value ([inr]) or raises ([inl]). *)
Record Remote : Type := mkRemote {
  list_tools : W -> (Exn + list (Tool Schema)) * W;
  messages_create : Req -> W -> (Exn + Resp) * W;
  call_tool : string -> ToolInput -> W -> (Exn + CallToolResult Content) * W }.

Variable remote : Remote.

(** The result of running a piece of the client from a world: what it
    returned or raised, the world it left, the remote calls it made. *)
Record Run (A : Type) : Type := mkRun {
  outcome : Exn + A;
  world : W;
  events : list Ev }.
Arguments mkRun {A} outcome world events.
Arguments outcome {A} r.
Arguments world {A} r.
Arguments events {A} r.

Definition M (A : Type) : Type := W -> Run A.

Definition ret {A} (a : A) : M A := fun w => mkRun (inr a) w [].

Definition raise {A} (e : Exn) : M A := fun w => mkRun (inl e) w [].

Definition bind {A B} (m : M A) (f : A -> M B) : M B :=
  fun w =>
    let r := m w in
    match outcome r with
    | inl e => mkRun (inl e) (world r) (events r)
    | inr a =>
        let r' := f a (world r) in
        mkRun (outcome r') (world r') (events r ++ events r')
    end.

Local Notation "x <- m ;; k" := (bind m (fun x => k))
  (at level 100, m at next level, right associativity).

(** A remote call: made, recorded, and its exception re-raised. *)
Definition remote_call {A} (call : W -> (Exn + A) * W)
    (ev : Exn + A -> Ev) : M A :=
  fun w => let (r, w') := call w in mkRun r w' [ev r].

Definition session_list_tools : M (list (Tool Schema)) :=
  remote_call (list_tools remote) EvListTools.

Definition anthropic_messages_create (req : Req) : M Resp :=
  remote_call (messages_create remote req) (EvCreate req).

Definition session_call_tool (name : string) (input : ToolInput)
    : M (CallToolResult Content) :=
  remote_call (call_tool remote name input) (EvCallTool name input).

(** ** process_query *)

Definition model : string := "claude-3-5-sonnet-20241022".
Definition max_tokens : nat := 1000.

(** The class of a block, as an [AttributeError] names it. *)
Definition block_class (b : Block) : string :=
  match b with
  | TextBlock _ => "TextBlock"
  | ToolUseBlock _ _ _ => "ToolUseBlock"
  | OtherBlock cls => cls
  end.

(** The [text] attribute: only a [TextBlock] has one. *)
Definition block_text (b : Block) : option string :=
  match b with
  | TextBlock t => Some t
  | _ => None
  end.

(** The element of the comprehension that builds [available_tools]. *)
Definition tool_spec (tool : Tool Schema) : ToolSpec Schema :=
  mkToolSpec (tool_name tool) (tool_description tool) (tool_inputSchema tool).

(** [f"[Calling tool {tool_name} with args {tool_args}]"] *)
Definition calling_tool (tool_name : string) (tool_args : ToolInput) : string :=
  ("[Calling tool " ++ tool_name ++ " with args " ++ input_str tool_args ++ "]")%string.

(** [response.content[0].text] *)
Definition first_text (response : Resp) : M string :=
  match resp_content response with
  | [] => raise IndexError
  | b :: _ =>
      match block_text b with
      | Some t => ret t
      | None => raise (AttributeError (block_class b))
      end
  end.

(** The two lists the loop updates. *)
Record Loop : Type := mkLoop {
  messages : list Msg;
  final_text : list string }.

(** The body of [for content in response.content]. *)
Definition process_block (content : Block) (l : Loop) : M Loop :=
  match content with
  | TextBlock text =>
      ret (mkLoop (messages l) (final_text l ++ [text]))
  | ToolUseBlock _ tool_name tool_args =>
      result <- session_call_tool tool_name tool_args ;;
      let final_text1 := final_text l ++ [calling_tool tool_name tool_args] in
      let messages1 :=
        match block_text content with
        | Some text =>
            if truthy text
            then messages l ++ [mkMessage assistant (MsgText text)]
            else messages l
        | None => messages l
        end in
      let messages2 :=
        messages1 ++ [mkMessage user (MsgToolResult (result_content result))] in
      response <- anthropic_messages_create
                    (mkCreateRequest model max_tokens messages2 None) ;;
      text <- first_text response ;;
      ret (mkLoop messages2 (final_text1 ++ [text]))
  | OtherBlock _ => ret l
  end.

(** The loop over the content of the first response: the iterator is
    taken once, before [response] is rebound inside the body. *)
Fixpoint process_blocks (content : list Block) (l : Loop) : M Loop :=
  match content with
  | [] => ret l
  | b :: rest => l' <- process_block b l ;; process_blocks rest l'
  end.

(** [process_query] up to its [return]: the two lists as they are then. *)
Definition process_query_loop (query : string) : M Loop :=
  let messages0 := [mkMessage user (MsgText query)] in
  response <- session_list_tools ;;
  let available_tools := map tool_spec response in
  response <- anthropic_messages_create
                (mkCreateRequest model max_tokens messages0 (Some available_tools)) ;;
  process_blocks (resp_content response) (mkLoop messages0 []).

Definition process_query (query : string) : M string :=
  l <- process_query_loop query ;;
  ret (join newline (final_text l)).

(** ** chat_loop *)

(** What one turn of [while True] does after it has read a line. *)
Inductive Turn : Type :=
| Break
| Printed (line : string).

(** One turn of the loop on [query], the stripped line read: [break] on
    quit, else the answer printed, or the message of the exception that
    [except Exception] caught. *)
Definition chat_turn (query : string) (w : W) : Turn * W * list Ev :=
  if (lower query =? "quit")%string then (Break, w, [])
  else
    let r := process_query query w in
    match outcome r with
    | inr response => (Printed (newline ++ response)%string, world r, events r)
    | inl e => (Printed (newline ++ "Error: " ++ exn_str e)%string, world r, events r)
    end.

(** The loop on the lines read one after the other: the lines printed,
    the world left and the remote calls made. *)
Fixpoint chat_loop (queries : list string) (w : W)
    : list string * W * list Ev :=
  match queries with
  | [] => ([], w, [])
  | query :: rest =>
      match chat_turn query w with
      | (Break, w', evs) => ([], w', evs)
      | (Printed line, w', evs) =>
          let '(lines, w'', evs') := chat_loop rest w' in
          (line :: lines, w'', evs ++ evs')
      end
  end.

End Engine.

Arguments Remote : clear implicits.
Arguments Run : clear implicits.
Arguments M : clear implicits.
Arguments Loop : clear implicits.
Arguments Turn : clear implicits.
Arguments mkRun {ToolInput Content Schema W A} outcome world events.
Arguments outcome {ToolInput Content Schema W A} r.
Arguments world {ToolInput Content Schema W A} r.
Arguments events {ToolInput Content Schema W A} r.

(** ** Reading a run *)

Section Observations.

Context {ToolInput Content Schema : Type}.

Local Abbreviation Block := (ContentBlock ToolInput).
Local Abbreviation Msg := (Message Content).
Local Abbreviation Ev := (Event ToolInput Content Schema).

(** The tool_use blocks of a response, in emission order. *)
Fixpoint tool_uses (content : list Block) : list (string * ToolInput) :=
  match content with
  | [] => []
  | ToolUseBlock _ name input :: rest => (name, input) :: tool_uses rest
  | _ :: rest => tool_uses rest
  end.

(** The [call_tool] invocations of a run, in the order they were made. *)
Fixpoint tool_calls (evs : list Ev) : list (string * ToolInput) :=
  match evs with
  | [] => []
  | EvCallTool name input _ :: rest => (name, input) :: tool_calls rest
  | _ :: rest => tool_calls rest
  end.

(** The requests of the [messages.create] calls of a run, in order. *)
Fixpoint llm_calls (evs : list Ev) : list (CreateRequest Content Schema) :=
  match evs with
  | [] => []
  | EvCreate req _ :: rest => req :: llm_calls rest
  | _ :: rest => llm_calls rest
  end.

(** The responses the model gave in a run, in order. *)
Fixpoint responses (evs : list Ev) : list (Response ToolInput) :=
  match evs with
  | [] => []
  | EvCreate _ (inr resp) :: rest => resp :: responses rest
  | _ :: rest => responses rest
  end.

(** The exception of a remote call that raised. *)
Definition event_raised (ev : Ev) : option Exn :=
  match ev with
  | EvListTools (inl e) | EvCreate _ (inl e) | EvCallTool _ _ (inl e) => Some e
  | _ => None
  end.

(** The roles of a history, in order. *)
Definition roles (history : list Msg) : list Role := map msg_role history.

(** What the events of the block loop look like when it runs to its end
    from history [m] and leaves history [m']: nothing for a block that is
    not a tool_use; for a tool_use block its [call_tool], then the one
    [messages.create], without tools, on the history extended by the
    result, then the events of the blocks after it. *)
Inductive Rounds : list Msg -> list Block -> list Ev -> list Msg -> Prop :=
| Rounds_nil m :
    Rounds m [] [] m
| Rounds_text m text rest evs m' :
    Rounds m rest evs m' ->
    Rounds m (TextBlock text :: rest) evs m'
| Rounds_other m cls rest evs m' :
    Rounds m rest evs m' ->
    Rounds m (OtherBlock cls :: rest) evs m'
| Rounds_tool_use m id name input result response rest evs m' :
    let m1 := m ++ [mkMessage user (MsgToolResult (result_content result))] in
    Rounds m1 rest evs m' ->
    Rounds m (ToolUseBlock id name input :: rest)
      (EvCallTool name input (inr result)
         :: EvCreate (mkCreateRequest model max_tokens m1 None) (inr response)
         :: evs)
      m'.

(** The texts of the text blocks of a response, in emission order. *)
Fixpoint texts (content : list Block) : list string :=
  match content with
  | [] => []
  | TextBlock text :: rest => text :: texts rest
  | _ :: rest => texts rest
  end.

(** The tool_use blocks of all the responses of a run, in the order the
    model emitted them. *)
Definition tool_uses_observed (evs : list Ev) : list (string * ToolInput) :=
  flat_map (fun resp => tool_uses (resp_content resp)) (responses evs).

(** The content of the first response of a run; empty when there is none. *)
Definition first_content (evs : list Ev) : list Block :=
  match responses evs with
  | first :: _ => resp_content first
  | [] => []
  end.

(** What [chat_loop] prints for a query: the answer after a newline, or
    the message of the exception caught. *)
Definition printed_for (o : Exn + string) : string :=
  match o with
  | inr response => (newline ++ response)%string
  | inl e => (newline ++ "Error: " ++ exn_str e)%string
  end.

(** A run that raised an exception of class [cls]. *)
Definition fails_with {A} (cls : string) (o : Exn + A) : Prop :=
  exists e, o = inl e /\ exn_class e = cls.

(** Where the exception [e] of a failed run comes from: the last remote
    call of the run raised it, or it is the [IndexError] or the
    [AttributeError] of [response.content[0].text]. *)
Definition failure_origin (e : Exn) (evs : list Ev) : Prop :=
  (exists before ev, evs = before ++ [ev] /\ event_raised ev = Some e) \/
  e = IndexError \/
  (exists cls, e = AttributeError cls).

(** The text of the first block of a response, when it has one. *)
Definition head_text (response : Response ToolInput) : option string :=
  match resp_content response with
  | b :: _ => block_text b
  | [] => None
  end.

(** The texts that came back from the continuation calls of a run: the
    first block's text of every response after the first. *)
Definition first_texts (rs : list (Response ToolInput)) : list string :=
  flat_map (fun resp => match head_text resp with Some t => [t] | None => [] end) rs.

Definition continuations (evs : list Ev) : list string :=
  first_texts (tl (responses evs)).

(** A remote call that came back. *)
Definition came_back (ev : Ev) : Prop := event_raised ev = None.

Variable input_str : ToolInput -> string.

(** The segments of the answer of a query whose first response has content
    [content] and whose continuation responses begin with the texts
    [continuations]: a text block gives its text, a tool_use block the
    marker of its call and then the text that came back. *)
Fixpoint segments (content : list Block) (continuations : list string)
    : list string :=
  match content with
  | [] => []
  | TextBlock text :: rest => text :: segments rest continuations
  | ToolUseBlock _ name input :: rest =>
      match continuations with
      | [] => [calling_tool input_str name input]
      | c :: cs => calling_tool input_str name input :: c :: segments rest cs
      end
  | OtherBlock _ :: rest => segments rest continuations
  end.

End Observations.

Arguments Rounds {ToolInput Content Schema} _ _ _ _.

Section Worlds.

Context {ToolInput Content Schema W : Type}.

(** A remote pair whose answers do not depend on the world: the same
    request gets the same answer whatever was called before. *)
Definition deterministic (remote : Remote ToolInput Content Schema W) : Prop :=
  (forall w1 w2, fst (list_tools remote w1) = fst (list_tools remote w2)) /\
  (forall req w1 w2,
     fst (messages_create remote req w1) = fst (messages_create remote req w2)) /\
  (forall name input w1 w2,
     fst (call_tool remote name input w1) = fst (call_tool remote name input w2)).

Variable input_str : ToolInput -> string.
Variable remote : Remote ToolInput Content Schema W.

Local Abbreviation Block := (ContentBlock ToolInput).
Local Abbreviation Ev := (Event ToolInput Content Schema).

(** The world the chat loop leaves after the given lines. *)
Definition world_after (queries : list string) (w : W) : W :=
  snd (fst (chat_loop input_str remote queries w)).

(** The lines the chat loop prints on the given lines. *)
Definition lines_printed (queries : list string) (w : W) : list string :=
  fst (fst (chat_loop input_str remote queries w)).

(** The request of the first [messages.create] of a query. *)
Definition first_request (query : string) (tools : list (Tool Schema))
    : CreateRequest Content Schema :=
  mkCreateRequest model max_tokens [mkMessage user (MsgText query)]
    (Some (map tool_spec tools)).

(** The request of a continuation call on history [m]. *)
Definition continuation_request (m : list (Message Content))
    : CreateRequest Content Schema :=
  mkCreateRequest model max_tokens m None.

(** The exception of [response.content[0].text] on a response whose first
    block has no text. *)
Definition first_text_error (response : Response ToolInput) : Exn :=
  match resp_content response with
  | [] => IndexError
  | b :: _ => AttributeError (block_class b)
  end.

(** The runs of the block loop, case by case: [Exec content l w r] when
    the loop over [content], entered with the lists [l] in world [w], makes
    the run [r]. *)
Inductive Exec : list Block -> Loop Content -> W
    -> Run ToolInput Content Schema W (Loop Content) -> Prop :=
| Exec_nil l w :
    Exec [] l w (mkRun (inr l) w [])
| Exec_text text rest l w r :
    Exec rest (mkLoop (messages l) (final_text l ++ [text])) w r ->
    Exec (TextBlock text :: rest) l w r
| Exec_other cls rest l w r :
    Exec rest l w r ->
    Exec (OtherBlock cls :: rest) l w r
| Exec_call_raises id name input rest l w e w1 :
    call_tool remote name input w = (inl e, w1) ->
    Exec (ToolUseBlock id name input :: rest) l w
      (mkRun (inl e) w1 [EvCallTool name input (inl e)])
| Exec_create_raises id name input rest l w result w1 e w2 :
    let m1 := messages l ++ [mkMessage user (MsgToolResult (result_content result))] in
    call_tool remote name input w = (inr result, w1) ->
    messages_create remote (continuation_request m1) w1 = (inl e, w2) ->
    Exec (ToolUseBlock id name input :: rest) l w
      (mkRun (inl e) w2
         [EvCallTool name input (inr result);
          EvCreate (continuation_request m1) (inl e)])
| Exec_no_text id name input rest l w result w1 response w2 :
    let m1 := messages l ++ [mkMessage user (MsgToolResult (result_content result))] in
    call_tool remote name input w = (inr result, w1) ->
    messages_create remote (continuation_request m1) w1 = (inr response, w2) ->
    head_text response = None ->
    Exec (ToolUseBlock id name input :: rest) l w
      (mkRun (inl (first_text_error response)) w2
         [EvCallTool name input (inr result);
          EvCreate (continuation_request m1) (inr response)])
| Exec_round id name input rest l w result w1 response w2 text r :
    let m1 := messages l ++ [mkMessage user (MsgToolResult (result_content result))] in
    call_tool remote name input w = (inr result, w1) ->
    messages_create remote (continuation_request m1) w1 = (inr response, w2) ->
    head_text response = Some text ->
    Exec rest
      (mkLoop m1 (final_text l ++ [calling_tool input_str name input; text])) w2 r ->
    Exec (ToolUseBlock id name input :: rest) l w
      (mkRun (outcome r) (world r)
         (EvCallTool name input (inr result)
            :: EvCreate (continuation_request m1) (inr response)
            :: events r)).

End Worlds.

(** ** Mock collaborators *)

Module Mock.

(** Inputs and tool results are strings, schemas carry nothing. *)
Definition Block : Type := ContentBlock string.
Definition Resp : Type := Response string.
Definition Req : Type := CreateRequest string unit.
Definition Ev : Type := Event string string unit.

Definition input_str (input : string) : string := input.

(** A model that plays a script: the world is the list of the answers it
    has still to give, one per [messages.create]; the catalog and the tool
    server are fixed. *)
Definition scripted (catalog : Exn + list (Tool unit))
    (tool : string -> string -> Exn + CallToolResult string)
    : Remote string string unit (list (Exn + Resp)) :=
  mkRemote
    (fun w => (catalog, w))
    (fun _ w =>
       match w with
       | [] => (inl (mkExn "APIError" "script exhausted"), [])
       | r :: w' => (r, w')
       end)
    (fun name input w => (tool name input, w)).

(** A model that answers from the request alone: a tool_use of [add] while
    the history holds the query only, the sum afterwards.  The world counts
    the remote calls and no answer reads it. *)
Definition adder : Remote string string unit nat :=
  mkRemote
    (fun w => (inr [mkTool "add" (Some "Add two numbers") tt], S w))
    (fun req w =>
       (inr (mkResponse
               (match req_messages req with
                | [_] => [ToolUseBlock "toolu_1" "add" "{'a': 2, 'b': 3}"]
                | _ => [TextBlock "The sum is 5"]
                end)), S w))
    (fun _ _ w => (inr (mkCallToolResult "5" false), S w)).

(** A model every answer of which holds a tool_use block. *)
Definition insatiable : Remote string string unit unit :=
  mkRemote
    (fun w => (inr [mkTool "step" None tt], w))
    (fun _ w =>
       (inr (mkResponse [TextBlock "one more"; ToolUseBlock "toolu_n" "step" "{}"]), w))
    (fun _ _ w => (inr (mkCallToolResult "ok" false), w)).

(** A tool server whose [list_tools] fails the first time it is asked and
    answers afterwards; the world counts the calls of [list_tools]. *)
Definition flaky : Remote string string unit nat :=
  mkRemote
    (fun w =>
       match w with
       | 0 => (inl (mkExn "ProtocolError" "malformed tools/list response"), 1)
       | S _ => (inr [], S w)
       end)
    (fun _ w => (inr (mkResponse [TextBlock "4"]), w))
    (fun _ _ w => (inr (mkCallToolResult "ok" false), w)).

(** A tool server that runs whatever it is asked for. *)
Definition any_tool (name input : string) : Exn + CallToolResult string :=
  inr (mkCallToolResult ("ran " ++ name)%string false).

Definition add_tool (name input : string) : Exn + CallToolResult string :=
  if (name =? "add")%string then inr (mkCallToolResult "5" false)
  else inl (mkExn "ToolExecutionError" ("tool failed: " ++ name)%string).

Definition add_catalog : Exn + list (Tool unit) :=
  inr [mkTool "add" (Some "Add two numbers") tt].

(** The blocks and scripts of the examples. *)
Definition add_call : Block := ToolUseBlock "toolu_1" "add" "{'a': 2, 'b': 3}".
Definition mul_call : Block := ToolUseBlock "toolu_2" "mul" "{'a': 5, 'b': 4}".
Definition ghost_call : Block := ToolUseBlock "toolu_3" "ghost" "{}".
Definition boom_call : Block := ToolUseBlock "toolu_4" "boom" "{}".

(** The model answers in plain text, in two blocks. *)
Definition two_texts : list (Exn + Resp) :=
  [inr (mkResponse [TextBlock "2+2"; TextBlock "is 4"])].

(** The model asks for [add]; its answer to the result asks for [mul]. *)
Definition add_then_mul : list (Exn + Resp) :=
  [inr (mkResponse [add_call]);
   inr (mkResponse [TextBlock "The sum is 5, now times 4"; mul_call])].

(** The model asks for a tool the catalog does not list. *)
Definition asks_ghost : list (Exn + Resp) :=
  [inr (mkResponse [TextBlock "Let me check"; ghost_call]);
   inr (mkResponse [TextBlock "Done"])].

(** The model asks for a tool that fails, then for [add]. *)
Definition boom_then_add : list (Exn + Resp) :=
  [inr (mkResponse [boom_call; add_call]);
   inr (mkResponse [TextBlock "unreachable"])].

End Mock.

(** ** More readings of a run *)

Section Histories.

Context {ToolInput Content Schema : Type}.

Local Abbreviation Ev := (Event ToolInput Content Schema).

(** The contents of the tool results that came back in a run, in order. *)
Fixpoint tool_results (evs : list Ev) : list Content :=
  match evs with
  | [] => []
  | EvCallTool _ _ (inr result) :: rest => result_content result :: tool_results rest
  | _ :: rest => tool_results rest
  end.

(** The message [process_query] appends for a tool result. *)
Definition tool_result_message (c : Content) : Message Content :=
  mkMessage user (MsgToolResult c).

(** The number of [list_tools] calls of a run. *)
Fixpoint list_tools_calls (evs : list Ev) : nat :=
  match evs with
  | [] => 0
  | EvListTools _ :: rest => S (list_tools_calls rest)
  | _ :: rest => list_tools_calls rest
  end.

(** A block with a [type] the loop has a branch for. *)
Definition text_or_tool_use (b : ContentBlock ToolInput) : bool :=
  match b with OtherBlock _ => false | _ => true end.

End Histories.

Section Variants.

Context {ToolInput Content Schema W : Type}.

(** The same collaborators, with the [isError] flag of every tool result
    cleared. *)
Definition clearing_isError (remote : Remote ToolInput Content Schema W)
    : Remote ToolInput Content Schema W :=
  mkRemote
    (list_tools remote)
    (messages_create remote)
    (fun name input w =>
       let (r, w') := call_tool remote name input w in
       (match r with
        | inl e => inl e
        | inr result => inr (mkCallToolResult (result_content result) false)
        end, w')).

(** A block with its [id], if it has one, replaced by [f id]. *)
Definition relabel_block (f : string -> string) (b : ContentBlock ToolInput)
    : ContentBlock ToolInput :=
  match b with
  | ToolUseBlock id name input => ToolUseBlock (f id) name input
  | _ => b
  end.

(** The same collaborators, with the ids of the tool_use blocks of every
    response replaced. *)
Definition relabelling (f : string -> string)
    (remote : Remote ToolInput Content Schema W)
    : Remote ToolInput Content Schema W :=
  mkRemote
    (list_tools remote)
    (fun req w =>
       let (r, w') := messages_create remote req w in
       (match r with
        | inl e => inl e
        | inr resp => inr (mkResponse (map (relabel_block f) (resp_content resp)))
        end, w'))
    (call_tool remote).

Variable input_str : ToolInput -> string.
Variable remote : Remote ToolInput Content Schema W.

(** The remote calls the chat loop makes on the given lines. *)
Definition calls_made (queries : list string) (w : W)
    : list (Event ToolInput Content Schema) :=
  snd (chat_loop input_str remote queries w).

End Variants.

(** ** Startup and teardown: connect_to_server, cleanup, main *)

Definition ValueError (msg : string) : Exn := mkExn "ValueError" msg.

(** What [input] raises at the end of the standard input. *)
Definition EOFError : Exn := mkExn "EOFError" "EOF when reading a line".

(** Python's [s.endswith(suffix)]: some tail of [s] is [suffix]. *)
Fixpoint endswith (s suffix : string) : bool :=
  if (s =? suffix)%string then true
  else
    match s with
    | EmptyString => false
    | String _ s' => endswith s' suffix
    end.

(** The keyword arguments of [StdioServerParameters]. *)
Record StdioServerParameters : Type := mkStdioServerParameters {
  command : string;
  args : list string;
  env : option (list (string * string)) }.

(** The two context managers the client enters on its exit stack. *)
Inductive ContextManager : Type :=
| StdioClient
| ClientSessionContext.

Section Processes.

Variables ToolInput Content Schema W : Type.

(** The collaborators of startup and teardown, as functions on the world:
    the constructor [Anthropic()], [__aenter__] of [stdio_client(params)]
    and of [ClientSession(stdio, write)], [session.initialize()], and
    [__aexit__] of a context, which is given the exception in flight, if
    any, and returns whether it swallows it, or raises. *)
Record Host : Type := mkHost {
  new_anthropic : W -> (Exn + unit) * W;
  enter_stdio_client : StdioServerParameters -> W -> (Exn + unit) * W;
  enter_client_session : W -> (Exn + unit) * W;
  session_initialize : W -> (Exn + unit) * W;
  exit_context : ContextManager -> option Exn -> W -> (Exn + bool) * W }.

(** The calls of a process, as made and as answered; [SysSession] is a
    call of the query loop or the [list_tools] of startup. *)
Inductive SysEvent : Type :=
| SysAnthropic (r : Exn + unit)
| SysEnterStdio (params : StdioServerParameters) (r : Exn + unit)
| SysEnterSession (r : Exn + unit)
| SysInitialize (r : Exn + unit)
| SysSession (ev : Event ToolInput Content Schema)
| SysExit (c : ContextManager) (exc : option Exn) (r : Exn + bool).

(** The state of the client process: the world and the exit stack of the
    client, last entered first. *)
Record Proc : Type := mkProc {
  proc_world : W;
  exit_stack : list ContextManager }.

(** What a step of the process does: its result, the state it leaves, the
    calls it made and what it wrote on the standard output. *)
Record Result (A : Type) : Type := mkResult {
  sys_result : Exn + A;
  proc : Proc;
  log : list SysEvent;
  stdout : list string }.

(** How [main] stands after a number of turns of the chat loop. *)
Inductive Status : Type :=
| Returned
| Raised (e : Exn)
| SystemExit (code : nat)
| Running.

Record MainRun : Type := mkMainRun {
  status : Status;
  main_proc : Proc;
  main_log : list SysEvent;
  main_stdout : list string }.

(** The chat loop after a number of turns: whether it has left the loop,
    what it wrote, the world and the calls of its queries. *)
Record Turns : Type := mkTurns {
  ended : bool;
  written : list string;
  turns_world : W;
  turns_events : list (Event ToolInput Content Schema) }.

End Processes.

Arguments mkHost {W} _ _ _ _ _.
Arguments new_anthropic {W} h _.
Arguments enter_stdio_client {W} h _ _.
Arguments enter_client_session {W} h _.
Arguments session_initialize {W} h _.
Arguments exit_context {W} h _ _ _.
Arguments SysAnthropic {ToolInput Content Schema} r.
Arguments SysEnterStdio {ToolInput Content Schema} params r.
Arguments SysEnterSession {ToolInput Content Schema} r.
Arguments SysInitialize {ToolInput Content Schema} r.
Arguments SysSession {ToolInput Content Schema} ev.
Arguments SysExit {ToolInput Content Schema} c exc r.
Arguments mkProc {W} proc_world exit_stack.
Arguments proc_world {W} p.
Arguments exit_stack {W} p.
Arguments mkResult {ToolInput Content Schema W A} sys_result proc log stdout.
Arguments sys_result {ToolInput Content Schema W A} r.
Arguments proc {ToolInput Content Schema W A} r.
Arguments log {ToolInput Content Schema W A} r.
Arguments stdout {ToolInput Content Schema W A} r.
Arguments mkMainRun {ToolInput Content Schema W} status main_proc main_log main_stdout.
Arguments status {ToolInput Content Schema W} m.
Arguments main_proc {ToolInput Content Schema W} m.
Arguments main_log {ToolInput Content Schema W} m.
Arguments main_stdout {ToolInput Content Schema W} m.
Arguments mkTurns {ToolInput Content Schema W} ended written turns_world turns_events.
Arguments ended {ToolInput Content Schema W} t.
Arguments written {ToolInput Content Schema W} t.
Arguments turns_world {ToolInput Content Schema W} t.
Arguments turns_events {ToolInput Content Schema W} t.

Section Lifecycle.

Context {ToolInput Content Schema W : Type}.

Variable input_str : ToolInput -> string.

(** Python's [str.strip] and the [str()] of a list of names, as [print]
    renders it. *)
Variable strip : string -> string.
Variable names_str : list string -> string.

Variable remote : Remote ToolInput Content Schema W.
Variable host : Host W.

Local Abbreviation Sys := (SysEvent ToolInput Content Schema).
Local Abbreviation Res := (Result ToolInput Content Schema W).

Definition P (A : Type) : Type := Proc W -> Res A.

Definition pret {A} (a : A) : P A := fun p => mkResult (inr a) p [] [].

Definition praise {A} (e : Exn) : P A := fun p => mkResult (inl e) p [] [].

Definition pbind {A B} (m : P A) (f : A -> P B) : P B :=
  fun p =>
    let r := m p in
    match sys_result r with
    | inl e => mkResult (inl e) (proc r) (log r) (stdout r)
    | inr a =>
        let r' := f a (proc r) in
        mkResult (sys_result r') (proc r') (log r ++ log r') (stdout r ++ stdout r')
    end.

Local Notation "x <- m ;; k" := (pbind m (fun x => k))
  (at level 100, m at next level, right associativity).

(** A call of a collaborator: made, recorded, and its exception re-raised. *)
Definition host_call {A} (call : W -> (Exn + A) * W) (ev : Exn + A -> Sys) : P A :=
  fun p =>
    let (r, w') := call (proc_world p) in
    mkResult r (mkProc w' (exit_stack p)) [ev r] [].

(** [exit_stack.enter_async_context(cm)]: [__aenter__] is called and, when
    it comes back, the exit of [cm] is pushed. *)
Definition enter_async_context (c : ContextManager) (enter : W -> (Exn + unit) * W)
    (ev : Exn + unit -> Sys) : P unit :=
  _ <- host_call enter ev ;;
  fun p => mkResult (inr tt) (mkProc (proc_world p) (c :: exit_stack p)) [] [].

(** [print(s)]: [s] and a newline. *)
Definition print (s : string) : P unit :=
  fun p => mkResult (inr tt) p [] [(s ++ newline)%string].

Definition connect_to_server (server_script_path : string) : P unit :=
  let is_python := endswith server_script_path ".py" in
  let is_js := endswith server_script_path ".js" in
  if negb (is_python || is_js)
  then praise (ValueError "Server script must be a .py or .js file")
  else
    let command := if is_python then "python" else "node" in
    let server_params :=
      mkStdioServerParameters command [server_script_path] None in
    _ <- enter_async_context StdioClient
           (enter_stdio_client host server_params) (SysEnterStdio server_params) ;;
    _ <- enter_async_context ClientSessionContext
           (enter_client_session host) SysEnterSession ;;
    _ <- host_call (session_initialize host) SysInitialize ;;
    response <- host_call (list_tools remote) (fun r => SysSession (EvListTools r)) ;;
    print (newline ++ "Connected to server with tools:" ++ " "
             ++ names_str (map tool_name response))%string.

(** The loop of [AsyncExitStack.__aexit__]: the exits are called last
    entered first, each with the exception in flight; an exit that
    returns true swallows it, one that raises replaces it. *)
Fixpoint run_exit_callbacks (stack : list ContextManager) (exc : option Exn)
    (pending_raise : bool) (w : W) : option Exn * bool * W * list Sys :=
  match stack with
  | [] => (exc, pending_raise, w, [])
  | c :: rest =>
      let (r, w') := exit_context host c exc w in
      let '(exc', pending_raise') :=
        match r with
        | inr true => (None, false)
        | inr false => (exc, pending_raise)
        | inl e => (Some e, true)
        end in
      let '(exc'', pending_raise'', w'', evs) :=
        run_exit_callbacks rest exc' pending_raise' w' in
      (exc'', pending_raise'', w'', SysExit c exc r :: evs)
  end.

(** [cleanup]: [exit_stack.aclose()]. *)
Definition cleanup : P unit :=
  fun p =>
    let '(exc, pending_raise, w', evs) :=
      run_exit_callbacks (exit_stack p) None false (proc_world p) in
    mkResult
      (match exc with
       | Some e => if pending_raise then inl e else inr tt
       | None => inr tt
       end)
      (mkProc w' []) evs [].

Definition prompt : string := (newline ++ "Query: ")%string.

(** What a turn prints when [input] raised at the end of the input. *)
Definition eof_line : string :=
  (newline ++ "Error: " ++ exn_str EOFError ++ newline)%string.

(** The turns of [while True], at most [fuel] of them, on the lines the
    standard input still holds: a turn writes the prompt and then, at the
    end of the input, the message of the [EOFError] caught, else what
    [chat_turn] does on the stripped line. *)
Fixpoint chat_loop_turns (fuel : nat) (stdin : list string) (w : W)
    : Turns ToolInput Content Schema W :=
  match fuel with
  | 0 => mkTurns false [] w []
  | S fuel' =>
      match stdin with
      | [] =>
          let t := chat_loop_turns fuel' [] w in
          mkTurns (ended t)
            (prompt :: (newline ++ "Error: " ++ exn_str EOFError ++ newline)%string
               :: written t)
            (turns_world t) (turns_events t)
      | line :: rest =>
          match chat_turn input_str remote (strip line) w with
          | (Break, w', evs) => mkTurns true [prompt] w' evs
          | (Printed s, w', evs) =>
              let t := chat_loop_turns fuel' rest w' in
              mkTurns (ended t) (prompt :: (s ++ newline)%string :: written t)
                (turns_world t) (evs ++ turns_events t)
          end
      end
  end.

(** [chat_loop] with its two opening lines; the result tells whether the
    loop was left within [fuel] turns. *)
Definition chat_loop_io (fuel : nat) (stdin : list string) : P bool :=
  _ <- print (newline ++ "MCP Client Started!")%string ;;
  _ <- print "Type your queries or 'quit' to exit." ;;
  fun p =>
    let t := chat_loop_turns fuel stdin (proc_world p) in
    mkResult (inr (ended t)) (mkProc (turns_world t) (exit_stack p))
      (map SysSession (turns_events t)) (written t).

Definition usage : string := "Usage: python client.py <path_to_server_script>".

(** [main], run as the script, on the arguments [argv] and the lines of
    the standard input, for at most [fuel] turns of the chat loop. *)
Definition main (argv : list string) (fuel : nat) (stdin : list string) (w : W)
    : MainRun ToolInput Content Schema W :=
  if (List.length argv <? 2)%nat
  then mkMainRun (SystemExit 1) (mkProc w []) [] [(usage ++ newline)%string]
  else
    let (r, w0) := new_anthropic host w in
    match r with
    | inl e => mkMainRun (Raised e) (mkProc w0 []) [SysAnthropic r] []
    | inr _ =>
        let body :=
          _ <- connect_to_server (nth 1 argv "") ;; chat_loop_io fuel stdin in
        let b := body (mkProc w0 []) in
        match sys_result b with
        | inr false =>
            mkMainRun Running (proc b) (SysAnthropic r :: log b) (stdout b)
        | tried =>
            let c := cleanup (proc b) in
            mkMainRun
              (match sys_result c, tried with
               | inl e', _ => Raised e'
               | inr _, inl e => Raised e
               | inr _, inr _ => Returned
               end)
              (proc c) (SysAnthropic r :: log b ++ log c) (stdout b ++ stdout c)
        end
    end.

End Lifecycle.

Section Resources.

Context {ToolInput Content Schema : Type}.

Local Abbreviation Sys := (SysEvent ToolInput Content Schema).

(** The contexts a process entered, in the order it entered them. *)
Fixpoint entered (evs : list Sys) : list ContextManager :=
  match evs with
  | [] => []
  | SysEnterStdio _ (inr _) :: rest => StdioClient :: entered rest
  | SysEnterSession (inr _) :: rest => ClientSessionContext :: entered rest
  | _ :: rest => entered rest
  end.

(** The contexts a process exited, in the order it exited them. *)
Fixpoint exited (evs : list Sys) : list ContextManager :=
  match evs with
  | [] => []
  | SysExit c _ _ :: rest => c :: exited rest
  | _ :: rest => exited rest
  end.

(** The server processes a process asked for. *)
Fixpoint launches (evs : list Sys) : list StdioServerParameters :=
  match evs with
  | [] => []
  | SysEnterStdio params _ :: rest => params :: launches rest
  | _ :: rest => launches rest
  end.

(** The exceptions the exits of a process raised. *)
Fixpoint exit_raises (evs : list Sys) : list Exn :=
  match evs with
  | [] => []
  | SysExit _ _ (inl e) :: rest => e :: exit_raises rest
  | _ :: rest => exit_raises rest
  end.

End Resources.

(** ** Mock collaborators of startup *)

Module MockHost.

(** Startup collaborators that come back, but for [ClientSession] when
    [session_ok] is false; no exit raises or swallows. *)
Definition host {W : Type} (session_ok : bool) : Host W :=
  mkHost
    (fun w => (inr tt, w))
    (fun _ w => (inr tt, w))
    (fun w =>
       (if session_ok then inr tt
        else inl (mkExn "ConnectionError" "handshake rejected"), w))
    (fun w => (inr tt, w))
    (fun _ _ w => (inr false, w)).

(** [str.strip] on ASCII text: the blanks at both ends are dropped. *)
Definition blank (c : ascii) : bool :=
  let n := nat_of_ascii c in
  (((9 <=? n) && (n <=? 13)) || ((28 <=? n) && (n <=? 32)))%nat.

Fixpoint lstrip (s : string) : string :=
  match s with
  | String c s' => if blank c then lstrip s' else s
  | EmptyString => EmptyString
  end.

Fixpoint rstrip (s : string) : string :=
  match s with
  | EmptyString => EmptyString
  | String c s' =>
      match rstrip s' with
      | EmptyString => if blank c then EmptyString else String c EmptyString
      | t => String c t
      end
  end.

Definition strip (s : string) : string := rstrip (lstrip s).

(** [str()] of a list of names that need no escape. *)
Definition names_str (names : list string) : string :=
  ("[" ++ join ", " (map (fun n => "'" ++ n ++ "'") names) ++ "]")%string.

(** The model asks for [add]; its answer to the result holds no text,
    only another tool_use. *)
Definition add_then_only_mul : list (Exn + Mock.Resp) :=
  [inr (mkResponse [Mock.add_call]); inr (mkResponse [Mock.mul_call])].

(** The model asks for [add] and [mul] in one response; its answer to the
    result of [add] asks for [ghost]. *)
Definition add_and_mul : list (Exn + Mock.Resp) :=
  [inr (mkResponse [Mock.add_call; Mock.mul_call]);
   inr (mkResponse [TextBlock "The sum is 5"; Mock.ghost_call]);
   inr (mkResponse [TextBlock "The product is 20"])].

(** A tool server that reports every failure in the result it returns,
    with [isError] set. *)
Definition flagged_tool (name input : string) : Exn + CallToolResult string :=
  inr (mkCallToolResult ("Error executing tool " ++ name)%string true).

(** The model asks for [add] and then comments on the result. *)
Definition add_then_comment : list (Exn + Mock.Resp) :=
  [inr (mkResponse [Mock.add_call]);
   inr (mkResponse [TextBlock "The tool reported an error"])].

End MockHost.

(** * Properties *)

Section Facts.

Context {ToolInput Content Schema W : Type}.
Variable input_str : ToolInput -> string.
Variable remote : Remote ToolInput Content Schema W.

Local Abbreviation Block := (ContentBlock ToolInput).
Local Abbreviation Ev := (Event ToolInput Content Schema).
Local Abbreviation RunOf := (Run ToolInput Content Schema W).

(** ** The block loop and its runs *)

Lemma run_eta A (r : RunOf A) : mkRun (outcome r) (world r) (events r) = r.
Proof. destruct r; reflexivity. Qed.

Lemma head_text_first_text (response : Response ToolInput) (w : W) :
  first_text response w =
  match head_text response with
  | Some t => mkRun (inr t) w []
  | None => mkRun (inl (first_text_error response)) w []
  end :> RunOf string.
Proof.
  unfold first_text, head_text, first_text_error.
  destruct (resp_content response) as [|b rest]; [reflexivity|].
  destruct (block_text b); reflexivity.
Qed.

(** The loop on a tool_use block, with its three remote steps spelled out. *)
Lemma process_blocks_tool_use id name input rest l w :
  process_blocks input_str remote (ToolUseBlock id name input :: rest) l w =
  match call_tool remote name input w with
  | (inl e, w1) => mkRun (inl e) w1 [EvCallTool name input (inl e)]
  | (inr result, w1) =>
      let m1 :=
        messages l ++ [mkMessage user (MsgToolResult (result_content result))] in
      match messages_create remote (continuation_request m1) w1 with
      | (inl e, w2) =>
          mkRun (inl e) w2
            [EvCallTool name input (inr result);
             EvCreate (continuation_request m1) (inl e)]
      | (inr response, w2) =>
          match head_text response with
          | None =>
              mkRun (inl (first_text_error response)) w2
                [EvCallTool name input (inr result);
                 EvCreate (continuation_request m1) (inr response)]
          | Some text =>
              let r :=
                process_blocks input_str remote rest
                  (mkLoop m1
                     (final_text l ++ [calling_tool input_str name input; text]))
                  w2 in
              mkRun (outcome r) (world r)
                (EvCallTool name input (inr result)
                   :: EvCreate (continuation_request m1) (inr response)
                   :: events r)
          end
      end
  end.
Proof.
  cbn [process_blocks process_block block_text].
  unfold bind, session_call_tool, anthropic_messages_create, remote_call,
    continuation_request.
  destruct (call_tool remote name input w) as [[e|result] w1]; cbn; [reflexivity|].
  destruct (messages_create remote _ w1) as [[e|response] w2]; cbn; [reflexivity|].
  rewrite head_text_first_text.
  destruct (head_text response) as [text|]; cbn; [|reflexivity].
  now rewrite <- app_assoc.
Qed.

Lemma process_blocks_text text rest l w :
  process_blocks input_str remote (TextBlock text :: rest) l w =
  process_blocks input_str remote rest
    (mkLoop (messages l) (final_text l ++ [text])) w.
Proof. cbn [process_blocks process_block]. unfold bind; cbn. apply run_eta. Qed.

Lemma process_blocks_other cls rest l w :
  process_blocks input_str remote (OtherBlock cls :: rest) l w =
  process_blocks input_str remote rest l w.
Proof. cbn [process_blocks process_block]. unfold bind; cbn. apply run_eta. Qed.

(** Every run of the loop is one of the cases of [Exec]. *)
Lemma process_blocks_exec (content : list Block) :
  forall l w, Exec input_str remote content l w
                (process_blocks input_str remote content l w).
Proof.
  induction content as [|b rest IH]; intros l w.
  - constructor.
  - destruct b as [text|id name input|cls].
    + rewrite process_blocks_text. constructor. apply IH.
    + rewrite process_blocks_tool_use.
      destruct (call_tool remote name input w) as [[e|result] w1] eqn:Hcall;
        [now apply Exec_call_raises|].
      cbv zeta.
      destruct (messages_create remote _ w1) as [[e|response] w2] eqn:Hcreate;
        [now eapply Exec_create_raises; eauto|].
      destruct (head_text response) as [text|] eqn:Htext;
        [|now eapply Exec_no_text; eauto].
      eapply Exec_round; eauto.
    + rewrite process_blocks_other. constructor. apply IH.
Qed.

(** ** The query and its runs *)

Lemma process_query_loop_unfold query w :
  process_query_loop input_str remote query w =
  match list_tools remote w with
  | (inl e, w1) => mkRun (inl e) w1 [EvListTools (inl e)]
  | (inr tools, w1) =>
      match messages_create remote (first_request query tools) w1 with
      | (inl e, w2) =>
          mkRun (inl e) w2
            [EvListTools (inr tools); EvCreate (first_request query tools) (inl e)]
      | (inr first, w2) =>
          let r :=
            process_blocks input_str remote (resp_content first)
              (mkLoop [mkMessage user (MsgText query)] []) w2 in
          mkRun (outcome r) (world r)
            (EvListTools (inr tools)
               :: EvCreate (first_request query tools) (inr first)
               :: events r)
      end
  end.
Proof.
  unfold process_query_loop, bind, session_list_tools,
    anthropic_messages_create, remote_call, first_request.
  destruct (list_tools remote w) as [[e|tools] w1]; cbn; [reflexivity|].
  destruct (messages_create remote _ w1) as [[e|first] w2]; cbn; reflexivity.
Qed.

Lemma process_query_unfold query w :
  process_query input_str remote query w =
  let r := process_query_loop input_str remote query w in
  mkRun
    (match outcome r with
     | inl e => inl e
     | inr l => inr (join newline (final_text l))
     end)
    (world r) (events r).
Proof.
  unfold process_query, bind; cbn.
  destruct (outcome (process_query_loop input_str remote query w));
    cbn; [reflexivity|].
  now rewrite app_nil_r.
Qed.

Lemma process_query_events query w :
  events (process_query input_str remote query w) =
  events (process_query_loop input_str remote query w).
Proof. now rewrite process_query_unfold. Qed.

Lemma process_query_answer query w answer :
  outcome (process_query input_str remote query w) = inr answer ->
  exists l,
    outcome (process_query_loop input_str remote query w) = inr l /\
    answer = join newline (final_text l).
Proof.
  rewrite process_query_unfold; cbn.
  destruct (outcome (process_query_loop input_str remote query w)) as [e|l];
    [discriminate|].
  intros [= <-]. now exists l.
Qed.

Lemma process_query_raises query w e :
  outcome (process_query input_str remote query w) = inl e <->
  outcome (process_query_loop input_str remote query w) = inl e.
Proof.
  rewrite process_query_unfold; cbn.
  destruct (outcome (process_query_loop input_str remote query w)) as [e'|l];
    split; congruence.
Qed.

(** A query that returns got its catalog and its first response, and then
    ran the block loop on that response to its end. *)
Lemma process_query_loop_returns query w l :
  outcome (process_query_loop input_str remote query w) = inr l ->
  exists tools w1 first w2,
    list_tools remote w = (inr tools, w1) /\
    messages_create remote (first_request query tools) w1 = (inr first, w2) /\
    let r :=
      process_blocks input_str remote (resp_content first)
        (mkLoop [mkMessage user (MsgText query)] []) w2 in
    outcome r = inr l /\
    events (process_query_loop input_str remote query w) =
      EvListTools (inr tools)
        :: EvCreate (first_request query tools) (inr first) :: events r.
Proof.
  rewrite process_query_loop_unfold.
  destruct (list_tools remote w) as [[e|tools] w1] eqn:Htools; [discriminate|].
  destruct (messages_create remote _ w1) as [[e|first] w2] eqn:Hfirst;
    [discriminate|].
  cbn. intros Hl. now exists tools, w1, first, w2.
Qed.

(** ** What holds of every run of the block loop *)

(** No call of the loop passes [tools]. *)
Lemma exec_no_tools content l w r :
  Exec input_str remote content l w r ->
  Forall (fun req => req_tools req = None) (llm_calls (events r)).
Proof.
  induction 1; cbn; auto.
Qed.

(** The loop calls tools for the tool_use blocks of its content, from the
    first one on and in their order, and calls the model at most once per
    tool call; when it runs to its end it has called every one of them and
    the model once after each. *)
Lemma exec_calls content l w r :
  Exec input_str remote content l w r ->
  (exists rest, tool_uses content = tool_calls (events r) ++ rest) /\
  List.length (llm_calls (events r)) <= List.length (tool_calls (events r)) /\
  (forall l', outcome r = inr l' ->
     tool_calls (events r) = tool_uses content /\
     List.length (llm_calls (events r)) = List.length (tool_uses content)).
Proof.
  induction 1 as [l w|text rest l w r _ IH|cls rest l w r _ IH
                 | | | |id name input rest l w result w1 response w2 text r m1 _ _ _ _ IH];
    cbn.
  - repeat split; auto. now exists [].
  - exact IH.
  - exact IH.
  - repeat split; try lia; try discriminate. now exists (tool_uses rest).
  - repeat split; try lia; try discriminate. now exists (tool_uses rest).
  - repeat split; try lia; try discriminate. now exists (tool_uses rest).
  - destruct IH as [[more Hmore] [Hle Hall]]. repeat split.
    + exists more. now rewrite Hmore.
    + lia.
    + destruct (Hall _ H) as [-> _]. reflexivity.
    + destruct (Hall _ H) as [_ ->]. reflexivity.
Qed.

(** A loop that runs to its end made the rounds of its tool_use blocks. *)
Lemma exec_rounds content l w r :
  Exec input_str remote content l w r ->
  forall l', outcome r = inr l' ->
  Rounds (messages l) content (events r) (messages l').
Proof.
  induction 1; cbn; intros l' Hl'; try discriminate.
  - injection Hl' as <-. constructor.
  - constructor. now apply IHExec.
  - constructor. now apply IHExec.
  - apply Rounds_tool_use. now apply IHExec.
Qed.

(** In a run of the loop only the last remote call can have raised, and
    then the run raises the same; a run that fails otherwise fails on the
    first block of a continuation response. *)
Lemma exec_failure content l w r :
  Exec input_str remote content l w r ->
  match outcome r with
  | inr _ => Forall came_back (events r)
  | inl e =>
      (exists before ev,
         events r = before ++ [ev] /\ event_raised ev = Some e /\
         Forall came_back before) \/
      ((e = IndexError \/ exists cls, e = AttributeError cls) /\
       Forall came_back (events r))
  end.
Proof.
  induction 1 as [l w|text rest l w r _ IH|cls rest l w r _ IH
                 |id name input rest l w e w1 _
                 |id name input rest l w result w1 e w2 m1 _ _
                 |id name input rest l w result w1 response w2 m1 _ _ Hnone
                 |id name input rest l w result w1 response w2 text r m1 _ _ _ _ IH];
    cbn; auto.
  - left. exists [], (EvCallTool name input (inl e)). auto.
  - left. exists [EvCallTool name input (inr result)],
      (EvCreate (continuation_request m1) (inl e)).
    repeat split. repeat constructor.
  - right. split; [|repeat constructor].
    unfold first_text_error. unfold head_text in Hnone.
    destruct (resp_content response) as [|b ?]; [now left|].
    right. now exists (block_class b).
  - destruct (outcome r) as [e|l'].
    + destruct IH as [(before & ev & -> & Hev & Hbefore)|[He Hall]].
      * left.
        exists (EvCallTool name input (inr result)
                  :: EvCreate (continuation_request m1) (inr response) :: before), ev.
        repeat split; auto. repeat constructor; auto.
      * right. split; auto. repeat constructor; auto.
    + repeat constructor; auto.
Qed.

(** A loop that runs to its end has appended the segments of its content. *)
Lemma exec_segments content l w r :
  Exec input_str remote content l w r ->
  forall l', outcome r = inr l' ->
  final_text l' =
  final_text l ++ segments input_str content (first_texts (responses (events r))).
Proof.
  induction 1 as [l w|text rest l w r _ IH|cls rest l w r _ IH
                 | | |
                 |id name input rest l w result w1 response w2 text r m1 _ _ Htext _ IH];
    cbn; intros l' Hl'; try discriminate.
  - injection Hl' as <-. now rewrite app_nil_r.
  - rewrite (IH _ Hl'); cbn. now rewrite <- app_assoc.
  - now apply IH.
  - rewrite (IH _ Hl'); cbn. unfold first_texts; cbn. rewrite Htext; cbn.
    now rewrite <- app_assoc.
Qed.

(** Blocks that hold no tool_use make no remote call: the loop only
    collects their texts. *)
Lemma process_blocks_no_tool_use pre :
  tool_uses pre = [] ->
  forall rest l w,
    process_blocks input_str remote (pre ++ rest) l w =
    process_blocks input_str remote rest
      (mkLoop (messages l) (final_text l ++ texts pre)) w.
Proof.
  induction pre as [|b pre IH]; intros Hpre rest l w; cbn [app texts].
  - rewrite app_nil_r. now destruct l.
  - destruct b as [text|id name input|cls]; cbn in Hpre; [|discriminate|].
    + rewrite process_blocks_text, (IH Hpre); cbn.
      now rewrite <- app_assoc.
    + now rewrite process_blocks_other, (IH Hpre).
Qed.

(** A loop that runs to its end got a text back from every tool call. *)
Lemma exec_first_texts content l w r :
  Exec input_str remote content l w r ->
  forall l', outcome r = inr l' ->
  List.length (first_texts (responses (events r))) =
  List.length (tool_uses content).
Proof.
  induction 1 as [l w|text rest l w r _ IH|cls rest l w r _ IH
                 | | |
                 |id name input rest l w result w1 response w2 text r m1 _ _ Htext _ IH];
    cbn; intros l' Hl'; try discriminate; eauto.
  unfold first_texts; cbn. rewrite Htext; cbn. f_equal. now apply (IH l').
Qed.

Lemma segments_marker content :
  forall continuations name input,
    In (name, input) (tool_uses content) ->
    List.length (tool_uses content) <= List.length continuations ->
    In (calling_tool input_str name input)
       (segments input_str content continuations).
Proof.
  induction content as [|b rest IH]; intros cs name input Hin Hlen; cbn in *.
  - contradiction.
  - destruct b as [text|id name' input'|cls]; cbn in *.
    + right. now apply IH.
    + destruct cs as [|c cs]; cbn in *; [lia|].
      destruct Hin as [[= -> ->]|Hin]; [now left|].
      right; right. apply IH; [assumption|lia].
    + now apply IH.
Qed.

(** Where a query fails: like the loop, with the two calls before it. *)
Lemma process_query_loop_failure query w :
  let r := process_query_loop input_str remote query w in
  match outcome r with
  | inr _ => Forall came_back (events r)
  | inl e =>
      (exists before ev,
         events r = before ++ [ev] /\ event_raised ev = Some e /\
         Forall came_back before) \/
      ((e = IndexError \/ exists cls, e = AttributeError cls) /\
       Forall came_back (events r))
  end.
Proof.
  cbv zeta. rewrite process_query_loop_unfold.
  destruct (list_tools remote w) as [[e|tools] w1]; cbn.
  { left. exists [], (EvListTools (inl e)). auto. }
  destruct (messages_create remote _ w1) as [[e|first] w2]; cbn.
  { left. exists [EvListTools (inr tools)],
      (EvCreate (first_request query tools) (inl e)).
    repeat split. repeat constructor. }
  pose proof (exec_failure _ _ _ _
                (process_blocks_exec (resp_content first)
                   (mkLoop [mkMessage user (MsgText query)] []) w2)) as Hloop.
  destruct (outcome (process_blocks _ _ _ _ _)) as [e|l].
  - destruct Hloop as [(before & ev & -> & Hev & Hbefore)|[He Hall]].
    + left.
      exists (EvListTools (inr tools)
                :: EvCreate (first_request query tools) (inr first) :: before), ev.
      repeat split; auto. repeat constructor; auto.
    + right. split; auto. repeat constructor; auto.
  - repeat constructor; auto.
Qed.

(** The calls of a query, counted against the tool_use blocks of its
    first response. *)
Lemma process_query_loop_calls query w :
  let r := process_query_loop input_str remote query w in
  let uses := tool_uses (first_content (events r)) in
  (exists rest, uses = tool_calls (events r) ++ rest) /\
  List.length (llm_calls (events r)) <= 1 + List.length (tool_calls (events r)) /\
  (forall l, outcome r = inr l ->
     tool_calls (events r) = uses /\
     List.length (llm_calls (events r)) = 1 + List.length uses).
Proof.
  cbv zeta. rewrite process_query_loop_unfold.
  destruct (list_tools remote w) as [[e|tools] w1]; cbn.
  { repeat split; try lia; try discriminate. now exists []. }
  destruct (messages_create remote _ w1) as [[e|first] w2]; cbn.
  { repeat split; try lia; try discriminate. now exists []. }
  unfold first_content; cbn.
  destruct (exec_calls _ _ _ _
              (process_blocks_exec (resp_content first)
                 (mkLoop [mkMessage user (MsgText query)] []) w2))
    as (Hprefix & Hle & Hall).
  repeat split; auto; try lia.
  - now apply (Hall l).
  - f_equal. now apply (Hall l).
Qed.

(** The chat loop on a line that is not quit. *)
Lemma chat_turn_query query w :
  lower query <> "quit" ->
  let r := process_query input_str remote query w in
  chat_turn input_str remote query w =
  (Printed (printed_for (outcome r)), world r, events r).
Proof.
  intros Hq. unfold chat_turn.
  apply String.eqb_neq in Hq. rewrite Hq. cbv zeta.
  destruct (outcome (process_query input_str remote query w)); reflexivity.
Qed.

Lemma lines_printed_cons query rest w :
  lower query <> "quit" ->
  let r := process_query input_str remote query w in
  lines_printed input_str remote (query :: rest) w =
    printed_for (outcome r) :: lines_printed input_str remote rest (world r) /\
  world_after input_str remote (query :: rest) w =
    world_after input_str remote rest (world r).
Proof.
  intros Hq. unfold lines_printed, world_after. cbn [chat_loop].
  rewrite (chat_turn_query _ _ Hq). cbv zeta.
  destruct (chat_loop input_str remote rest _) as [[lines w''] evs']; cbn.
  now split.
Qed.

(** With a deterministic pair the loop does the same from any two worlds. *)
Lemma process_blocks_deterministic (Hdet : deterministic remote) content :
  forall l w1 w2,
    outcome (process_blocks input_str remote content l w1) =
    outcome (process_blocks input_str remote content l w2) /\
    events (process_blocks input_str remote content l w1) =
    events (process_blocks input_str remote content l w2).
Proof.
  destruct Hdet as (_ & Hcreate & Hcall).
  induction content as [|b rest IH]; intros l w1 w2.
  - now split.
  - destruct b as [text|id name input|cls].
    + rewrite !process_blocks_text. apply IH.
    + rewrite !process_blocks_tool_use.
      pose proof (Hcall name input w1 w2) as Ec.
      destruct (call_tool remote name input w1) as [o1 w1'],
               (call_tool remote name input w2) as [o2 w2'].
      cbn in Ec; subst o2. destruct o1 as [e|result]; [now split|].
      cbv zeta.
      pose proof (Hcreate
                    (continuation_request
                       (messages l ++
                        [mkMessage user (MsgToolResult (result_content result))]))
                    w1' w2') as Em.
      destruct (messages_create remote _ w1') as [p1 w1''],
               (messages_create remote _ w2') as [p2 w2''].
      cbn in Em; subst p2. destruct p1 as [e|response]; [now split|].
      destruct (head_text response) as [text|]; [|now split].
      cbv zeta. cbn [outcome events].
      destruct (IH (mkLoop
                      (messages l ++
                       [mkMessage user (MsgToolResult (result_content result))])
                      (final_text l ++ [calling_tool input_str name input; text]))
                   w1'' w2'') as [-> ->].
      now split.
    + rewrite !process_blocks_other. apply IH.
Qed.

Lemma process_query_loop_deterministic (Hdet : deterministic remote) query w1 w2 :
  outcome (process_query_loop input_str remote query w1) =
  outcome (process_query_loop input_str remote query w2) /\
  events (process_query_loop input_str remote query w1) =
  events (process_query_loop input_str remote query w2).
Proof.
  rewrite !process_query_loop_unfold.
  pose proof Hdet as (Htools & Hcreate & _).
  pose proof (Htools w1 w2) as Et.
  destruct (list_tools remote w1) as [o1 w1'], (list_tools remote w2) as [o2 w2'].
  cbn in Et; subst o2. destruct o1 as [e|tools]; [now split|].
  pose proof (Hcreate (first_request query tools) w1' w2') as Em.
  destruct (messages_create remote _ w1') as [p1 w1''],
           (messages_create remote _ w2') as [p2 w2''].
  cbn in Em; subst p2. destruct p1 as [e|first]; [now split|].
  cbv zeta. cbn [outcome events].
  destruct (process_blocks_deterministic Hdet (resp_content first)
              (mkLoop [mkMessage user (MsgText query)] []) w1'' w2'') as [-> ->].
  now split.
Qed.

(** ** The claims *)

(** C7: within one query the tool catalog goes to the model on the first
    [messages.create] only: that call passes the catalog [list_tools] gave,
    adapted, and every call after it (the continuation calls made once a
    tool result is in the history) passes no [tools]. *)
Theorem tools_sent_on_first_call_only query w :
  match llm_calls (events (process_query input_str remote query w)) with
  | [] => True
  | first :: continuation =>
      (exists tools,
         fst (list_tools remote w) = inr tools /\
         req_tools first = Some (map tool_spec tools)) /\
      Forall (fun req => req_tools req = None) continuation
  end.
Proof.
  rewrite process_query_events, process_query_loop_unfold.
  destruct (list_tools remote w) as [[e|tools] w1]; cbn; [exact I|].
  destruct (messages_create remote _ w1) as [[e|first] w2]; cbn.
  - split; [now exists tools | constructor].
  - split; [now exists tools|].
    eapply exec_no_tools, process_blocks_exec.
Qed.

(** C10: with a deterministic model and tool pair, the same query run a
    second time, from the world the first run left, gives the same answer
    (or the same exception), the same final history, hence the same length
    and the same sequence of roles, and the same remote calls with the
    same histories sent. *)
Theorem same_query_twice (Hdet : deterministic remote) query w :
  let first := process_query_loop input_str remote query w in
  let second := process_query_loop input_str remote query (world first) in
  outcome (process_query input_str remote query w) =
    outcome (process_query input_str remote query (world first)) /\
  events first = events second /\
  match outcome first, outcome second with
  | inr l1, inr l2 =>
      List.length (messages l1) = List.length (messages l2) /\
      roles (messages l1) = roles (messages l2)
  | inl e1, inl e2 => e1 = e2
  | _, _ => False
  end.
Proof.
  cbv zeta.
  destruct (process_query_loop_deterministic Hdet query w
              (world (process_query_loop input_str remote query w))) as [Ho Hev].
  rewrite !process_query_unfold; cbn.
  rewrite <- Ho. repeat split; auto.
  destruct (outcome (process_query_loop input_str remote query w)); auto.
Qed.

(** A tool result that came back is sent to the model by the next call. *)
Lemma exec_result_goes_to_model content l w r :
  Exec input_str remote content l w r ->
  forall name input result,
    In (EvCallTool name input (inr result)) (events r) ->
    exists before req x after,
      events r =
        before ++ EvCallTool name input (inr result) :: EvCreate req x :: after /\
      req_tools req = None /\
      exists earlier,
        req_messages req = earlier ++ [tool_result_message (result_content result)].
Proof.
  induction 1 as [l w|text rest l w r _ IH|cls rest l w r _ IH
                 |id name' input' rest l w e w1 _
                 |id name' input' rest l w result' w1 e w2 m1 _ _
                 |id name' input' rest l w result' w1 response w2 m1 _ _ _
                 |id name' input' rest l w result' w1 response w2 text r m1 _ _ _ _ IH];
    cbn [events]; intros name input result Hin; auto.
  - destruct Hin.
  - destruct Hin as [[=]|[]].
  - destruct Hin as [[= -> -> ->]|[[=]|[]]].
    exists [], (continuation_request m1), (inl e), [].
    repeat split. now exists (messages l).
  - destruct Hin as [[= -> -> ->]|[[=]|[]]].
    exists [], (continuation_request m1), (inr response), [].
    repeat split. now exists (messages l).
  - destruct Hin as [[= -> -> ->]|[[=]|Hin]].
    + exists [], (continuation_request m1), (inr response), (events r).
      repeat split. now exists (messages l).
    + destruct (IH _ _ _ Hin) as (before & req & x & after & -> & Hreq).
      now exists (EvCallTool name' input' (inr result')
                    :: EvCreate (continuation_request m1) (inr response) :: before),
                 req, x, after.
Qed.

(** C5, as amended: a tool failure ends the query only when [call_tool]
    raises.  When it raises, whatever the exception (ToolExecutionError,
    ToolNotFound), the call is not made again and nothing is called after
    it: every remote call before it came back and it is the last call of
    the query; the query raises that exception, and the chat loop prints
    its message after "Error: " as the line for the query.  When it
    returns a result, whatever the result says of itself ([isError] set or
    not), the query goes on: the next remote call is a [messages.create]
    without tools whose history ends with that result. *)
Theorem tool_failure_ends_query_only_when_raised query w name input r
    (Hquery : lower query <> "quit")
    (Hcall : In (EvCallTool name input r)
                (events (process_query input_str remote query w))) :
  let run := process_query input_str remote query w in
  match r with
  | inl e =>
      outcome run = inl e /\
      (exists before,
         events run = before ++ [EvCallTool name input (inl e)] /\
         Forall came_back before) /\
      fst (fst (chat_turn input_str remote query w)) =
        Printed (newline ++ "Error: " ++ exn_str e)%string
  | inr result =>
      exists before req x after,
        events run =
          before ++ EvCallTool name input (inr result) :: EvCreate req x :: after /\
        req_tools req = None /\
        exists earlier,
          req_messages req =
            earlier ++ [tool_result_message (result_content result)]
  end.
Proof.
  cbv zeta. destruct r as [e|result].
  - rewrite (chat_turn_query _ _ Hquery). cbn [fst].
    assert (Hgoal :
      outcome (process_query_loop input_str remote query w) = inl e /\
      exists before,
        events (process_query_loop input_str remote query w) =
          before ++ [EvCallTool name input (inl e)] /\
        Forall came_back before).
    { rewrite process_query_events in Hcall.
      pose proof (process_query_loop_failure query w) as Hfail. cbv zeta in Hfail.
      assert (Hbad : forall evs : list Ev,
                 Forall came_back evs ->
                 In (EvCallTool name input (inl e)) evs -> False).
      { intros evs Hall Hin. rewrite Forall_forall in Hall.
        specialize (Hall _ Hin). discriminate Hall. }
      destruct (outcome (process_query_loop input_str remote query w)) as [e'|l].
      - destruct Hfail as [(before & ev & Hevs & Hev & Hbefore)|[_ Hall]].
        + rewrite Hevs in Hcall. apply in_app_or in Hcall.
          destruct Hcall as [Hin|[->|[]]].
          * destruct (Hbad _ Hbefore Hin).
          * cbn in Hev. injection Hev as <-. split; [reflexivity|].
            now exists before.
        + destruct (Hbad _ Hall Hcall).
      - destruct (Hbad _ Hfail Hcall). }
    destruct Hgoal as [Ho Hlast].
    apply process_query_raises in Ho.
    rewrite process_query_events, Ho. auto.
  - rewrite process_query_events in *.
    rewrite process_query_loop_unfold in *.
    destruct (list_tools remote w) as [[e|tools] w1]; cbn [events] in *.
    { destruct Hcall as [[=]|[]]. }
    destruct (messages_create remote _ w1) as [[e|first] w2]; cbn [events] in *.
    { destruct Hcall as [[=]|[[=]|[]]]. }
    destruct Hcall as [[=]|[[=]|Hcall]].
    destruct (exec_result_goes_to_model _ _ _ _
                (process_blocks_exec (resp_content first)
                   (mkLoop [mkMessage user (MsgText query)] []) w2)
                _ _ _ Hcall) as (before & req & x & after & -> & Hreq).
    now exists (EvListTools (inr tools)
                  :: EvCreate (first_request query tools) (inr first) :: before),
               req, x, after.
Qed.

(** C1, as amended: in a query that returns an answer, every tool_use
    block of the first model response is dispatched by exactly one
    [call_tool] with its name and input, in block emission order, and each
    call is followed at once by exactly one append of its result to the
    history and by its own continuation [messages.create] on that history,
    before the next block is looked at; a later tool_use block of the same
    response is therefore dispatched after the continuation calls of the
    earlier ones.  Blocks of continuation responses are not dispatched. *)
Theorem first_response_tool_uses_dispatched query w answer
    (Hanswer : outcome (process_query input_str remote query w) = inr answer) :
  exists tools first evs l,
    events (process_query input_str remote query w) =
      EvListTools (inr tools)
        :: EvCreate (first_request query tools) (inr first) :: evs /\
    outcome (process_query_loop input_str remote query w) = inr l /\
    Rounds [mkMessage user (MsgText query)] (resp_content first) evs (messages l) /\
    tool_calls evs = tool_uses (resp_content first).
Proof.
  apply process_query_answer in Hanswer as (l & Hl & _).
  destruct (process_query_loop_returns _ _ _ Hl)
    as (tools & w1 & first & w2 & _ & _ & Hrun & Hevs).
  pose proof (process_blocks_exec (resp_content first)
                (mkLoop [mkMessage user (MsgText query)] []) w2) as Hexec.
  exists tools, first, (events (process_blocks input_str remote (resp_content first)
                                  (mkLoop [mkMessage user (MsgText query)] []) w2)), l.
  rewrite process_query_events. repeat split; auto.
  - apply (exec_rounds _ _ _ _ Hexec _ Hrun).
  - destruct (exec_calls _ _ _ _ Hexec) as (_ & _ & Hall).
    now apply (Hall l).
Qed.

(** C2, as amended: the engine has no round limit and no TurnLimitExceeded
    of its own, and needs none to end: whatever the responses hold, a query
    makes at most 1 + k [messages.create] calls, k the number of tool_use
    blocks of the first response, and when it fails, it fails with the
    exception of its last remote call or with the IndexError or
    AttributeError of reading the first block of a continuation response. *)
Theorem no_round_limit_and_none_needed query w :
  let r := process_query input_str remote query w in
  List.length (llm_calls (events r)) <=
    1 + List.length (tool_uses (first_content (events r))) /\
  match outcome r with
  | inr _ => True
  | inl e => failure_origin e (events r)
  end.
Proof.
  cbv zeta. split.
  - rewrite process_query_events.
    destruct (process_query_loop_calls query w) as ([rest ->] & Hle & _).
    rewrite length_app. lia.
  - destruct (outcome (process_query input_str remote query w)) as [e|answer] eqn:Ho;
      [|exact I].
    apply process_query_raises in Ho. rewrite process_query_events.
    pose proof (process_query_loop_failure query w) as Hfail. cbv zeta in Hfail.
    rewrite Ho in Hfail. unfold failure_origin.
    destruct Hfail as [(before & ev & Hevs & Hev & _)|[[He|He] _]]; eauto.
Qed.

(** C3, as amended: when the first model response holds no tool_use block,
    the query ends after its one [messages.create], without any
    [call_tool], and the answer is the texts of that response's text
    blocks, in emission order, joined by newlines. *)
Theorem no_tool_use_single_round query w tools w1 first w2
    (Htools : list_tools remote w = (inr tools, w1))
    (Hfirst : messages_create remote (first_request query tools) w1 = (inr first, w2))
    (Hnone : tool_uses (resp_content first) = []) :
  process_query input_str remote query w =
  mkRun (inr (join newline (texts (resp_content first)))) w2
    [EvListTools (inr tools); EvCreate (first_request query tools) (inr first)].
Proof.
  rewrite process_query_unfold, process_query_loop_unfold, Htools, Hfirst.
  pose proof (process_blocks_no_tool_use _ Hnone []
                (mkLoop [mkMessage user (MsgText query)] []) w2) as Hloop.
  rewrite app_nil_r in Hloop. rewrite Hloop. reflexivity.
Qed.

(** C4: as the chat loop drives it, a query never raises past the loop:
    whatever the queries before it did, the query gets exactly one printed
    line, its answer or, when it failed, "Error: " and the message of the
    exception, and the loop goes on from the world that query left.  When
    [list_tools] raises, the query makes no other call and its line is the
    error line. *)
Theorem chat_loop_answers_every_query before query after w
    (Hlines : Forall (fun q => lower q <> "quit") (before ++ [query])) :
  let w0 := world_after input_str remote before w in
  let r := process_query input_str remote query w0 in
  nth_error (lines_printed input_str remote (before ++ query :: after) w)
    (List.length before) = Some (printed_for (outcome r)) /\
  world_after input_str remote (before ++ query :: after) w =
    world_after input_str remote after (world r) /\
  (forall e w1,
     list_tools remote w0 = (inl e, w1) ->
     events r = [EvListTools (inl e)] /\
     printed_for (outcome r) = (newline ++ "Error: " ++ exn_str e)%string).
Proof.
  cbv zeta. revert w Hlines.
  induction before as [|q before IH]; intros w Hlines; cbn [app] in *.
  - apply Forall_inv in Hlines.
    destruct (lines_printed_cons query after w Hlines) as [-> ->].
    unfold world_after at 1 3 4; cbn.
    split; [reflexivity|]. split; [reflexivity|].
    intros e w1 Hraise. split.
    + rewrite process_query_events, process_query_loop_unfold, Hraise. reflexivity.
    + rewrite process_query_unfold, process_query_loop_unfold, Hraise. reflexivity.
  - pose proof (Forall_inv Hlines) as Hq. apply Forall_inv_tail in Hlines.
    destruct (lines_printed_cons q (before ++ query :: after) w Hq) as [-> ->].
    destruct (lines_printed_cons q before w Hq) as [_ ->].
    cbn [List.length nth_error]. apply IH, Hlines.
Qed.

(** C6, as amended: the engine does not look a tool name up in the
    catalog: the first tool_use block of the first response is passed to
    [call_tool], name and input as the model gave them, whatever the
    catalog holds, and the call is the next remote call after the first
    [messages.create]. *)
Theorem tool_called_without_catalog_check query w tools w1 first w2
    texts_before id name input blocks_after
    (Htools : list_tools remote w = (inr tools, w1))
    (Hfirst : messages_create remote (first_request query tools) w1 = (inr first, w2))
    (Hcontent : resp_content first =
                texts_before ++ ToolUseBlock id name input :: blocks_after)
    (Hbefore : tool_uses texts_before = []) :
  exists evs,
    events (process_query input_str remote query w) =
    EvListTools (inr tools)
      :: EvCreate (first_request query tools) (inr first)
      :: EvCallTool name input (fst (call_tool remote name input w2))
      :: evs.
Proof.
  rewrite process_query_events, process_query_loop_unfold, Htools, Hfirst, Hcontent.
  rewrite (process_blocks_no_tool_use _ Hbefore), process_blocks_tool_use.
  destruct (call_tool remote name input w2) as [[e|result] w3]; cbn; [now eexists|].
  destruct (messages_create remote _ w3) as [[e|response] w4]; cbn; [now eexists|].
  destruct (head_text response); cbn; now eexists.
Qed.

(** C8, as amended: the tool calls of a query are the tool_use blocks of
    its first response, from the first one on and in their order, and the
    query calls the model at most once more than it calls tools; so it
    makes at most 1 + k [messages.create] calls and at most k [call_tool]
    calls, k the number of tool_use blocks of the first response, and a
    query that returns an answer makes exactly 1 + k and exactly k. *)
Theorem calls_bounded_by_first_response query w :
  let r := process_query input_str remote query w in
  let uses := tool_uses (first_content (events r)) in
  let k := List.length uses in
  (exists rest, uses = tool_calls (events r) ++ rest) /\
  List.length (llm_calls (events r)) <= 1 + k /\
  List.length (tool_calls (events r)) <= k /\
  match outcome r with
  | inr _ =>
      List.length (llm_calls (events r)) = 1 + k /\
      tool_calls (events r) = uses
  | inl _ => True
  end.
Proof.
  cbv zeta. rewrite process_query_events.
  destruct (process_query_loop_calls query w) as ([rest Hrest] & Hle & Hall).
  assert (Hk : List.length (tool_calls
                              (events (process_query_loop input_str remote query w)))
               <= List.length (tool_uses (first_content
                              (events (process_query_loop input_str remote query w))))).
  { apply (f_equal (@List.length _)) in Hrest. rewrite length_app in Hrest. lia. }
  repeat split; try lia; [now exists rest|].
  destruct (outcome (process_query input_str remote query w)) as [e|answer] eqn:Ho;
    [exact I|].
  apply process_query_answer in Ho as (l & Hl & _).
  destruct (Hall _ Hl) as [Hcalls Hllm]. now split.
Qed.

(** C9: the answer a query returns is the segments collected, joined by
    newlines: the texts of the text blocks of the first response and, at
    the place of each tool_use block, the line
    "[Calling tool NAME with args ARGS]" of its call followed by the text
    that came back; so every tool call made has its marker line in the
    answer. *)
Theorem answer_is_joined_segments query w answer
    (Hanswer : outcome (process_query input_str remote query w) = inr answer) :
  let evs := events (process_query input_str remote query w) in
  let segs := segments input_str (first_content evs) (continuations evs) in
  answer = join newline segs /\
  (forall name input,
     In (name, input) (tool_calls evs) ->
     In (calling_tool input_str name input) segs).
Proof.
  cbv zeta. rewrite process_query_events.
  apply process_query_answer in Hanswer as (l & Hl & ->).
  destruct (process_query_loop_returns _ _ _ Hl)
    as (tools & w1 & first & w2 & _ & _ & Hrun & ->).
  cbv zeta in Hrun.
  pose proof (process_blocks_exec (resp_content first)
                (mkLoop [mkMessage user (MsgText query)] []) w2) as Hexec.
  unfold first_content, continuations; cbn [responses tl tool_calls].
  split.
  - now rewrite (exec_segments _ _ _ _ Hexec _ Hrun).
  - intros name input Hin.
    destruct (exec_calls _ _ _ _ Hexec) as (_ & _ & Hall).
    destruct (Hall _ Hrun) as [Hcalls _].
    apply segments_marker.
    + now rewrite <- Hcalls.
    + rewrite (exec_first_texts _ _ _ _ Hexec _ Hrun). lia.
Qed.

End Facts.

(** * Further properties of the query loop *)

Section QueryFacts.

Context {ToolInput Content Schema W : Type}.
Variable input_str : ToolInput -> string.
Variable remote : Remote ToolInput Content Schema W.

Local Abbreviation Block := (ContentBlock ToolInput).
Local Abbreviation Ev := (Event ToolInput Content Schema).

(** The history a call of the block loop sends: the history the loop
    started with and the results of the tool calls made so far. *)
Lemma exec_histories content l w r :
  Exec input_str remote content l w r ->
  forall pre req x post,
    events r = pre ++ EvCreate req x :: post ->
    req = continuation_request
            (messages l ++ map tool_result_message (tool_results pre)) /\
    List.length (tool_results pre) = S (List.length (llm_calls pre)).
Proof.
  induction 1 as [l w|text rest l w r _ IH|cls rest l w r _ IH
                 |id name input rest l w e w1 _
                 |id name input rest l w result w1 e w2 m1 _ _
                 |id name input rest l w result w1 response w2 m1 _ _ _
                 |id name input rest l w result w1 response w2 text r m1 _ _ _ _ IH];
    cbn [events]; intros pre req x post Hevs.
  - destruct pre; discriminate.
  - now apply (IH pre req x post).
  - now apply (IH pre req x post).
  - destruct pre as [|? [|? ?]]; discriminate.
  - destruct pre as [|ev1 [|ev2 [|? ?]]]; try discriminate.
    injection Hevs as <- <- _ _. now split.
  - destruct pre as [|ev1 [|ev2 [|? ?]]]; try discriminate.
    injection Hevs as <- <- _ _. now split.
  - destruct pre as [|ev1 [|ev2 pre]]; try discriminate.
    + injection Hevs as <- <- _ _. now split.
    + injection Hevs as <- <- Hevs.
      destruct (IH pre req x post Hevs) as [-> Hlen]. cbn.
      subst m1. unfold tool_result_message at 2.
      rewrite <- app_assoc. cbn. split; [reflexivity|]. now rewrite Hlen.
Qed.

(** X1: every [messages.create] of a query is sent the query followed by
    the results of the tool calls that came back before it, in order, all
    of them as user messages and nothing else: no assistant message is
    ever put in the history.  The history of a call therefore has one
    message more than there were calls of the model before it. *)
Theorem history_is_query_then_tool_results query w pre req x post
    (Hevs : events (process_query input_str remote query w) =
            pre ++ EvCreate req x :: post) :
  req_messages req =
    mkMessage user (MsgText query) :: map tool_result_message (tool_results pre) /\
  Forall (fun m => msg_role m = user) (req_messages req) /\
  List.length (req_messages req) = 1 + List.length (llm_calls pre).
Proof.
  assert (Hmsgs :
    req_messages req =
      mkMessage user (MsgText query) :: map tool_result_message (tool_results pre) /\
    List.length (tool_results pre) = List.length (llm_calls pre)).
  { rewrite process_query_events, process_query_loop_unfold in Hevs.
    destruct (list_tools remote w) as [[e|tools] w1]; cbn in Hevs.
    { destruct pre as [|? [|? ?]]; discriminate. }
    destruct (messages_create remote _ w1) as [[e|first] w2]; cbn in Hevs.
    { destruct pre as [|ev1 [|ev2 [|? ?]]]; try discriminate.
      injection Hevs as <- <- _ _. now split. }
    destruct pre as [|ev1 [|ev2 pre]]; try discriminate.
    - injection Hevs as <- <- _ _. now split.
    - injection Hevs as <- <- Hevs.
      destruct (exec_histories _ _ _ _
                  (process_blocks_exec input_str remote (resp_content first)
                     (mkLoop [mkMessage user (MsgText query)] []) w2)
                  pre req x post Hevs) as [-> Hlen].
      cbn. now split. }
  destruct Hmsgs as [Hmsgs Hlen]. rewrite Hmsgs. repeat split.
  - constructor; [reflexivity|].
    apply Forall_forall. intros m Hm. apply in_map_iff in Hm as (c & <- & _).
    reflexivity.
  - cbn. now rewrite length_map, Hlen.
Qed.

(** X2: no remote call of a query is made again or followed by another
    once it raised, whichever it is ([list_tools], [messages.create],
    [call_tool]): all the calls before it came back, it is the last call
    of the query, and the query raises its exception. *)
Theorem first_raise_ends_query query w ev e
    (Hin : In ev (events (process_query input_str remote query w)))
    (Hraised : event_raised ev = Some e) :
  outcome (process_query input_str remote query w) = inl e /\
  exists before,
    events (process_query input_str remote query w) = before ++ [ev] /\
    Forall came_back before.
Proof.
  rewrite process_query_events in *.
  pose proof (process_query_loop_failure input_str remote query w) as Hfail.
  cbv zeta in Hfail.
  assert (Hbad : forall evs : list Ev, Forall came_back evs -> In ev evs -> False).
  { intros evs Hall Hin'. rewrite Forall_forall in Hall.
    specialize (Hall _ Hin'). unfold came_back in Hall. congruence. }
  destruct (outcome (process_query_loop input_str remote query w)) as [e'|l] eqn:Ho.
  - destruct Hfail as [(before & ev' & Hevs & Hev' & Hbefore)|[_ Hall]].
    + rewrite Hevs in Hin. apply in_app_or in Hin.
      destruct Hin as [Hin|[->|[]]]; [destruct (Hbad _ Hbefore Hin)|].
      assert (e' = e) as -> by congruence.
      split; [now apply process_query_raises|]. now exists before.
    + destruct (Hbad _ Hall Hin).
  - destruct (Hbad _ Hfail Hin).
Qed.

(** A loop that fails though every remote call came back stopped on the
    first block of the last response. *)
Lemma exec_fails_on_first_block content l w r :
  Exec input_str remote content l w r ->
  forall e, outcome r = inl e -> Forall came_back (events r) ->
  exists before name input result req response,
    events r =
      before ++ [EvCallTool name input (inr result); EvCreate req (inr response)] /\
    head_text response = None /\
    e = first_text_error response.
Proof.
  induction 1 as [l w|text rest l w r _ IH|cls rest l w r _ IH
                 |id name input rest l w e' w1 _
                 |id name input rest l w result w1 e' w2 m1 _ _
                 |id name input rest l w result w1 response w2 m1 _ _ Hnone
                 |id name input rest l w result w1 response w2 text r m1 _ _ _ _ IH];
    cbn [outcome events]; intros e He Hall; try discriminate; eauto.
  - apply Forall_inv in Hall. discriminate Hall.
  - apply Forall_inv_tail, Forall_inv in Hall. discriminate Hall.
  - injection He as <-.
    now exists [], name, input, result, (continuation_request m1), response.
  - apply Forall_inv_tail, Forall_inv_tail in Hall.
    destruct (IH e He Hall)
      as (before & name' & input' & result' & req & response' & -> & Hnone & ->).
    now exists (EvCallTool name input (inr result)
                  :: EvCreate (continuation_request m1) (inr response) :: before),
               name', input', result', req, response'.
Qed.

(** X3: a query can fail without any remote call raising only in one way:
    a tool was called, its result sent to the model, and the response that
    came back does not begin with a text block.  The query then raises
    IndexError when that response is empty and AttributeError, naming the
    class of the first block, otherwise; the texts collected so far are
    lost though the tool has run. *)
Theorem failure_without_remote_raise query w e
    (Hfails : outcome (process_query input_str remote query w) = inl e)
    (Hall : Forall came_back (events (process_query input_str remote query w))) :
  exists before name input result req response,
    events (process_query input_str remote query w) =
      before ++ [EvCallTool name input (inr result); EvCreate req (inr response)] /\
    req_tools req = None /\
    ((resp_content response = [] /\ e = IndexError) \/
     (exists b rest,
        resp_content response = b :: rest /\ block_text b = None /\
        e = AttributeError (block_class b))).
Proof.
  apply process_query_raises in Hfails.
  rewrite process_query_events in *.
  rewrite process_query_loop_unfold in *.
  destruct (list_tools remote w) as [[e'|tools] w1]; cbn in *.
  { apply Forall_inv in Hall. discriminate Hall. }
  destruct (messages_create remote _ w1) as [[e'|first] w2]; cbn in *.
  { apply Forall_inv_tail, Forall_inv in Hall. discriminate Hall. }
  apply Forall_inv_tail, Forall_inv_tail in Hall.
  pose proof (process_blocks_exec input_str remote (resp_content first)
                (mkLoop [mkMessage user (MsgText query)] []) w2) as Hexec.
  destruct (exec_fails_on_first_block _ _ _ _ Hexec e Hfails Hall)
    as (before & name & input & result & req & response & Hevs & Hnone & ->).
  exists (EvListTools (inr tools)
            :: EvCreate (first_request query tools) (inr first) :: before),
         name, input, result, req, response.
  rewrite Hevs. split; [reflexivity|]. split.
  - pose proof (exec_no_tools _ _ _ _ _ _ Hexec) as Hno. rewrite Hevs in Hno.
    rewrite Forall_forall in Hno. apply Hno.
    clear. induction before as [|[?|? ?|? ? ?] before IH]; cbn; auto.
  - unfold head_text, first_text_error in *.
    destruct (resp_content response) as [|b rest]; [now left|].
    right. now exists b, rest.
Qed.

(** The loop with the [isError] flags cleared. *)
Lemma process_blocks_clearing_isError content :
  forall l w,
    let r := process_blocks input_str remote content l w in
    let r' := process_blocks input_str (clearing_isError remote) content l w in
    outcome r' = outcome r /\ world r' = world r /\
    llm_calls (events r') = llm_calls (events r) /\
    tool_calls (events r') = tool_calls (events r).
Proof.
  induction content as [|b rest IH]; intros l w; cbv zeta.
  - now repeat split.
  - destruct b as [text|id name input|cls].
    + rewrite !process_blocks_text. apply IH.
    + rewrite !process_blocks_tool_use. cbn [call_tool messages_create clearing_isError].
      destruct (call_tool remote name input w) as [[e|result] w1];
        [now repeat split|].
      cbv zeta. cbn [result_content].
      destruct (messages_create remote _ w1) as [[e|response] w2];
        [now repeat split|].
      destruct (head_text response) as [text|]; [|now repeat split].
      cbn [outcome world events llm_calls tool_calls].
      destruct (IH (mkLoop
                      (messages l ++
                       [mkMessage user (MsgToolResult (result_content result))])
                      (final_text l ++ [calling_tool input_str name input; text]))
                   w2) as (-> & -> & -> & ->).
      now repeat split.
    + rewrite !process_blocks_other. apply IH.
Qed.

(** X4: the [isError] flag of a tool result is never read: with the flag
    cleared on every result, a query gives the same answer or raises the
    same exception, leaves the same world, sends the model the same
    requests and calls the same tools.  A result flagged as an error is
    sent to the model like any other. *)
Theorem isError_is_never_read query w :
  let r := process_query input_str remote query w in
  let r' := process_query input_str (clearing_isError remote) query w in
  outcome r' = outcome r /\ world r' = world r /\
  llm_calls (events r') = llm_calls (events r) /\
  tool_calls (events r') = tool_calls (events r).
Proof.
  cbv zeta. rewrite !process_query_unfold. cbv zeta. cbn [outcome world events].
  rewrite !process_query_loop_unfold. cbn [list_tools messages_create clearing_isError].
  destruct (list_tools remote w) as [[e|tools] w1]; [now repeat split|].
  destruct (messages_create remote _ w1) as [[e|first] w2]; [now repeat split|].
  cbv zeta. cbn [outcome world events llm_calls tool_calls].
  destruct (process_blocks_clearing_isError (resp_content first)
              (mkLoop [mkMessage user (MsgText query)] []) w2)
    as (-> & -> & -> & ->).
  now repeat split.
Qed.

Lemma head_text_relabel f (response : Response ToolInput) :
  head_text (mkResponse (map (relabel_block f) (resp_content response))) =
  head_text response.
Proof.
  unfold head_text; cbn. destruct (resp_content response) as [|[?|? ? ?|?] ?];
    reflexivity.
Qed.

Lemma first_text_error_relabel f (response : Response ToolInput) :
  first_text_error (mkResponse (map (relabel_block f) (resp_content response))) =
  first_text_error response.
Proof.
  unfold first_text_error; cbn.
  destruct (resp_content response) as [|[?|? ? ?|?] ?]; reflexivity.
Qed.

(** The loop on relabelled blocks, against relabelling collaborators. *)
Lemma process_blocks_relabelling f content :
  forall l w,
    let r := process_blocks input_str remote content l w in
    let r' := process_blocks input_str (relabelling f remote)
                (map (relabel_block f) content) l w in
    outcome r' = outcome r /\ world r' = world r /\
    llm_calls (events r') = llm_calls (events r) /\
    tool_calls (events r') = tool_calls (events r).
Proof.
  induction content as [|b rest IH]; intros l w; cbv zeta.
  - now repeat split.
  - destruct b as [text|id name input|cls]; cbn [map relabel_block].
    + rewrite !process_blocks_text. apply IH.
    + rewrite !process_blocks_tool_use. cbn [call_tool messages_create relabelling].
      destruct (call_tool remote name input w) as [[e|result] w1];
        [now repeat split|].
      cbv zeta.
      destruct (messages_create remote _ w1) as [[e|response] w2];
        [now repeat split|].
      rewrite head_text_relabel, first_text_error_relabel.
      destruct (head_text response) as [text|]; [|now repeat split].
      cbn [outcome world events llm_calls tool_calls].
      destruct (IH (mkLoop
                      (messages l ++
                       [mkMessage user (MsgToolResult (result_content result))])
                      (final_text l ++ [calling_tool input_str name input; text]))
                   w2) as (-> & -> & -> & ->).
      now repeat split.
    + rewrite !process_blocks_other. apply IH.
Qed.

(** X5: the [id] of a tool_use block is never read: with the ids of all
    tool_use blocks replaced, in every response, a query gives the same
    answer or raises the same exception, leaves the same world, sends the
    model the same requests and calls the same tools.  In particular no
    tool result is tied to the block that asked for it. *)
Theorem tool_use_id_is_never_read (f : string -> string) query w :
  let r := process_query input_str remote query w in
  let r' := process_query input_str (relabelling f remote) query w in
  outcome r' = outcome r /\ world r' = world r /\
  llm_calls (events r') = llm_calls (events r) /\
  tool_calls (events r') = tool_calls (events r).
Proof.
  cbv zeta. rewrite !process_query_unfold. cbv zeta. cbn [outcome world events].
  rewrite !process_query_loop_unfold. cbn [list_tools messages_create relabelling].
  destruct (list_tools remote w) as [[e|tools] w1]; [now repeat split|].
  destruct (messages_create remote _ w1) as [[e|first] w2]; [now repeat split|].
  cbv zeta. cbn [resp_content outcome world events llm_calls tool_calls].
  destruct (process_blocks_relabelling f (resp_content first)
              (mkLoop [mkMessage user (MsgText query)] []) w2)
    as (-> & -> & -> & ->).
  now repeat split.
Qed.

(** X6: the block loop passes over the blocks that are neither text nor
    tool_use: on a content with those blocks taken out it makes the same
    run, the same calls with the same results and the same final lists. *)
Theorem other_blocks_are_skipped content l w :
  process_blocks input_str remote (filter text_or_tool_use content) l w =
  process_blocks input_str remote content l w.
Proof.
  revert l w. induction content as [|b rest IH]; intros l w; [reflexivity|].
  destruct b as [text|id name input|cls]; cbn [filter text_or_tool_use].
  - rewrite !process_blocks_text. apply IH.
  - rewrite !process_blocks_tool_use.
    destruct (call_tool remote name input w) as [[e|result] w1]; [reflexivity|].
    cbv zeta.
    destruct (messages_create remote _ w1) as [[e|response] w2]; [reflexivity|].
    destruct (head_text response) as [text|]; [|reflexivity].
    now rewrite IH.
  - rewrite process_blocks_other. apply IH.
Qed.

Lemma list_tools_calls_app (evs evs' : list Ev) :
  list_tools_calls (evs ++ evs') = list_tools_calls evs + list_tools_calls evs'.
Proof.
  induction evs as [|[?|? ?|? ? ?] evs IH]; cbn; auto.
Qed.

Lemma exec_no_list_tools content l w r :
  Exec input_str remote content l w r -> list_tools_calls (events r) = 0.
Proof. induction 1; cbn; auto. Qed.

(** A query asks for the catalog once, before anything else. *)
Lemma process_query_list_tools query w :
  exists r rest,
    events (process_query input_str remote query w) = EvListTools r :: rest /\
    list_tools_calls rest = 0.
Proof.
  rewrite process_query_events, process_query_loop_unfold.
  destruct (list_tools remote w) as [[e|tools] w1]; [now eexists _, []|].
  destruct (messages_create remote _ w1) as [[e|first] w2];
    [now eexists _, [_]|].
  cbn. eexists _, _. split; [reflexivity|]. cbn.
  eapply exec_no_list_tools, process_blocks_exec.
Qed.

(** X7: the catalog is fetched anew for every query and never kept: a chat
    of n lines, none of them quit, calls [list_tools] exactly n times,
    whatever the queries did, failed or not. *)
Theorem catalog_fetched_once_per_query queries w
    (Hlines : Forall (fun q => lower q <> "quit") queries) :
  list_tools_calls (calls_made input_str remote queries w) = List.length queries.
Proof.
  unfold calls_made. revert w.
  induction Hlines as [|q queries Hq _ IH]; intros w; [reflexivity|].
  cbn [chat_loop]. rewrite (chat_turn_query _ _ _ _ Hq). cbv zeta.
  specialize (IH (world (process_query input_str remote q w))).
  destruct (chat_loop input_str remote queries _) as [[lines w''] evs']; cbn in *.
  rewrite list_tools_calls_app, IH.
  destruct (process_query_list_tools q w) as (r & rest & -> & Hrest).
  cbn. now rewrite Hrest.
Qed.

(** X8: quit ends the chat: the lines after it are never read as queries.
    The loop prints, calls and leaves the world as it does on the lines
    before the quit alone; the quit itself, in any letter case, prints
    nothing and calls nothing. *)
Theorem nothing_runs_after_quit before q after w
    (Hquit : lower q = "quit") :
  chat_loop input_str remote (before ++ q :: after) w =
  chat_loop input_str remote before w.
Proof.
  revert w. induction before as [|b before IH]; intros w; cbn [app chat_loop].
  - unfold chat_turn. rewrite Hquit. reflexivity.
  - destruct (chat_turn input_str remote b w) as [[[|line] w'] evs]; [reflexivity|].
    now rewrite IH.
Qed.

End QueryFacts.

(** * Properties of startup and teardown *)

Section Suffixes.

Lemma string_append_assoc (a b c : string) :
  ((a ++ b) ++ c = a ++ (b ++ c))%string.
Proof. induction a as [|x a IH]; cbn; [reflexivity|now rewrite IH]. Qed.

Lemma length_append (a b : string) :
  String.length (a ++ b) = String.length a + String.length b.
Proof. induction a as [|c a IH]; cbn; auto. Qed.

(** Two strings that end with tails of the same length end with the same
    tail. *)
Lemma append_tail_inj (a b : string) :
  String.length a = String.length b ->
  forall pre stem, (pre ++ a)%string = (stem ++ b)%string -> a = b.
Proof.
  intros Hlen. induction pre as [|c pre IH]; intros stem Heq.
  - destruct stem as [|d stem]; [exact Heq|].
    cbn in Heq. subst a. cbn in Hlen. rewrite length_append in Hlen. lia.
  - destruct stem as [|d stem].
    + cbn in Heq. subst b. cbn in Hlen. rewrite length_append in Hlen. lia.
    + cbn in Heq. injection Heq as _ Heq. now apply (IH stem).
Qed.

Lemma endswith_cons c (s suffix : string) :
  endswith (String c s) suffix =
  if (String c s =? suffix)%string then true else endswith s suffix.
Proof. reflexivity. Qed.

Lemma endswith_spec (s suffix : string) :
  endswith s suffix = true <-> exists pre, s = (pre ++ suffix)%string.
Proof.
  split.
  - induction s as [|c s IH].
    + destruct suffix; [now exists ""|discriminate].
    + rewrite endswith_cons.
      destruct (String.eqb_spec (String c s) suffix) as [<-|_]; [now exists ""|].
      intros H. destruct (IH H) as [pre ->]. now exists (String c pre).
  - intros [pre ->]. induction pre as [|c pre IH].
    + destruct suffix as [|d suffix]; [reflexivity|].
      cbn [append]. rewrite endswith_cons. now rewrite String.eqb_refl.
    + cbn [append]. rewrite endswith_cons.
      destruct (String.eqb_spec (String c (pre ++ suffix)) suffix); auto.
Qed.

Lemma endswith_other_suffix (stem a b : string) :
  String.length a = String.length b -> a <> b ->
  endswith (stem ++ a) b = false.
Proof.
  intros Hlen Hne. destruct (endswith (stem ++ a) b) eqn:E; [|reflexivity].
  apply endswith_spec in E as [pre E].
  destruct Hne. now apply (append_tail_inj a b Hlen stem pre).
Qed.

End Suffixes.

Section LifecycleFacts.

Context {ToolInput Content Schema W : Type}.
Variable input_str : ToolInput -> string.
Variable strip : string -> string.
Variable names_str : list string -> string.
Variable remote : Remote ToolInput Content Schema W.
Variable host : Host W.

Local Abbreviation Sys := (SysEvent ToolInput Content Schema).
Local Abbreviation connect := (connect_to_server names_str remote host).
Local Abbreviation turns := (chat_loop_turns input_str strip remote).
Local Abbreviation run_main := (main input_str strip names_str remote host).
Local Abbreviation clean_up := (@cleanup ToolInput Content Schema W host).

(** A call bound to what follows it. *)
Lemma pbind_host_call {A B} (call : W -> (Exn + A) * W) (ev : Exn + A -> Sys)
    (f : A -> P B) p :
  pbind (host_call call ev) f p =
  match call (proc_world p) with
  | (inl e, w') => mkResult (inl e) (mkProc w' (exit_stack p)) [ev (inl e)] []
  | (inr a, w') =>
      let r' := f a (mkProc w' (exit_stack p)) in
      mkResult (sys_result r') (proc r') (ev (inr a) :: log r') (stdout r')
  end.
Proof.
  unfold pbind, host_call.
  destruct (call (proc_world p)) as [[e|a] w']; reflexivity.
Qed.

Lemma pbind_enter_async_context {B} c (enter : W -> (Exn + unit) * W)
    (ev : Exn + unit -> Sys) (f : unit -> P B) p :
  pbind (enter_async_context c enter ev) f p =
  match enter (proc_world p) with
  | (inl e, w') => mkResult (inl e) (mkProc w' (exit_stack p)) [ev (inl e)] []
  | (inr u, w') =>
      let r' := f tt (mkProc w' (c :: exit_stack p)) in
      mkResult (sys_result r') (proc r') (ev (inr u) :: log r') (stdout r')
  end.
Proof.
  unfold pbind at 1. unfold enter_async_context. rewrite pbind_host_call.
  destruct (enter (proc_world p)) as [[e|u] w']; reflexivity.
Qed.

(** [connect_to_server] on a path it accepts, step by step. *)
Lemma connect_to_server_steps path p :
  (endswith path ".py" || endswith path ".js")%bool = true ->
  let params :=
    mkStdioServerParameters
      (if endswith path ".py" then "python" else "node") [path] None in
  let stack := exit_stack p in
  connect path p =
  match enter_stdio_client host params (proc_world p) with
  | (inl e, w1) =>
      mkResult (inl e) (mkProc w1 stack) [SysEnterStdio params (inl e)] []
  | (inr u1, w1) =>
      match enter_client_session host w1 with
      | (inl e, w2) =>
          mkResult (inl e) (mkProc w2 (StdioClient :: stack))
            [SysEnterStdio params (inr u1); SysEnterSession (inl e)] []
      | (inr u2, w2) =>
          let stack2 := ClientSessionContext :: StdioClient :: stack in
          match session_initialize host w2 with
          | (inl e, w3) =>
              mkResult (inl e) (mkProc w3 stack2)
                [SysEnterStdio params (inr u1); SysEnterSession (inr u2);
                 SysInitialize (inl e)] []
          | (inr u3, w3) =>
              match list_tools remote w3 with
              | (inl e, w4) =>
                  mkResult (inl e) (mkProc w4 stack2)
                    [SysEnterStdio params (inr u1); SysEnterSession (inr u2);
                     SysInitialize (inr u3); SysSession (EvListTools (inl e))] []
              | (inr tools, w4) =>
                  mkResult (inr tt) (mkProc w4 stack2)
                    [SysEnterStdio params (inr u1); SysEnterSession (inr u2);
                     SysInitialize (inr u3); SysSession (EvListTools (inr tools))]
                    [(newline ++ "Connected to server with tools:" ++ " "
                        ++ names_str (map tool_name tools) ++ newline)%string]
              end
          end
      end
  end.
Proof.
  intros Hok. cbv zeta. unfold connect_to_server. rewrite Hok. cbn [negb].
  rewrite pbind_enter_async_context.
  destruct (enter_stdio_client host _ (proc_world p)) as [[e|u1] w1]; [reflexivity|].
  cbv zeta. rewrite pbind_enter_async_context. cbn [proc_world exit_stack].
  destruct (enter_client_session host w1) as [[e|u2] w2]; [reflexivity|].
  cbv zeta. rewrite pbind_host_call. cbn [proc_world exit_stack].
  destruct (session_initialize host w2) as [[e|u3] w3]; [reflexivity|].
  cbv zeta. rewrite pbind_host_call. cbn [proc_world exit_stack].
  destruct (list_tools remote w3) as [[e|tools] w4]; [reflexivity|].
  cbv zeta. unfold print. cbn [sys_result proc log stdout].
  now rewrite !string_append_assoc.
Qed.

Lemma connect_to_server_rejects path p :
  (endswith path ".py" || endswith path ".js")%bool = false ->
  connect path p =
  mkResult (inl (ValueError "Server script must be a .py or .js file")) p [] [].
Proof. intros Hno. unfold connect_to_server. now rewrite Hno. Qed.

(** X9: a script path that ends neither in .py nor in .js is refused with
    a ValueError before anything is touched: no server is launched, no
    call is made, nothing is written and the exit stack is as it was. *)
Theorem connect_refuses_other_scripts path p
    (Hpy : forall stem, path <> (stem ++ ".py")%string)
    (Hjs : forall stem, path <> (stem ++ ".js")%string) :
  connect path p =
  mkResult (inl (ValueError "Server script must be a .py or .js file")) p [] [].
Proof.
  apply connect_to_server_rejects.
  destruct (endswith path ".py") eqn:Epy.
  { apply endswith_spec in Epy as [stem ->]. now destruct (Hpy stem). }
  destruct (endswith path ".js") eqn:Ejs; [|reflexivity].
  apply endswith_spec in Ejs as [stem ->]. now destruct (Hjs stem).
Qed.

Lemma launches_of_steps path p :
  (endswith path ".py" || endswith path ".js")%bool = true ->
  launches (log (connect path p)) =
  [mkStdioServerParameters
     (if endswith path ".py" then "python" else "node") [path] None].
Proof.
  intros Hok. rewrite (connect_to_server_steps path p Hok). cbv zeta.
  destruct (enter_stdio_client host _ _) as [[e|u1] w1]; [reflexivity|].
  destruct (enter_client_session host w1) as [[e|u2] w2]; [reflexivity|].
  destruct (session_initialize host w2) as [[e|u3] w3]; [reflexivity|].
  destruct (list_tools remote w3) as [[e|tools] w4]; reflexivity.
Qed.

(** X10: the server is launched by the suffix of the script: [python] for
    a path that ends in .py, [node] for one that ends in .js, in both
    cases with the path as the only argument and no environment; and it is
    launched once. *)
Theorem server_command_follows_suffix stem p :
  launches (log (connect (stem ++ ".py") p)) =
    [mkStdioServerParameters "python" [(stem ++ ".py")%string] None] /\
  launches (log (connect (stem ++ ".js") p)) =
    [mkStdioServerParameters "node" [(stem ++ ".js")%string] None].
Proof.
  assert (Hpy : endswith (stem ++ ".py") ".py" = true)
    by (apply endswith_spec; now exists stem).
  assert (Hjs : endswith (stem ++ ".js") ".js" = true)
    by (apply endswith_spec; now exists stem).
  assert (Hno : endswith (stem ++ ".js") ".py" = false)
    by (apply endswith_other_suffix; [reflexivity|discriminate]).
  split.
  - rewrite launches_of_steps; rewrite Hpy; reflexivity.
  - rewrite launches_of_steps; rewrite Hno, ?Hjs; reflexivity.
Qed.

(** X11: whatever step of [connect_to_server] fails, the exit stack holds
    afterwards exactly the contexts that were entered, last entered on
    top, above what it held before: a context whose enter raised is not on
    it, one that was entered is, also when a later step raised. *)
Theorem exit_stack_holds_what_was_entered path p :
  exit_stack (proc (connect path p)) =
  rev (entered (log (connect path p))) ++ exit_stack p.
Proof.
  destruct (endswith path ".py" || endswith path ".js")%bool eqn:Hok.
  - rewrite (connect_to_server_steps path p Hok). cbv zeta.
    destruct (enter_stdio_client host _ _) as [[e|u1] w1]; [reflexivity|].
    destruct (enter_client_session host w1) as [[e|u2] w2]; [reflexivity|].
    destruct (session_initialize host w2) as [[e|u3] w3]; [reflexivity|].
    destruct (list_tools remote w3) as [[e|tools] w4]; reflexivity.
  - now rewrite (connect_to_server_rejects path p Hok).
Qed.

(** X12: [connect_to_server] returns only after its four steps came back,
    in this order: the server launched, the session entered, the session
    initialized, the tools listed; it then holds both contexts, the
    session on top, and has written the one line that lists the names of
    the tools. *)
Theorem connect_returns_after_all_steps path p
    (Hok : sys_result (connect path p) = inr tt) :
  exists params tools,
    log (connect path p) =
      [SysEnterStdio params (inr tt); SysEnterSession (inr tt);
       SysInitialize (inr tt); SysSession (EvListTools (inr tools))] /\
    args params = [path] /\
    exit_stack (proc (connect path p)) =
      ClientSessionContext :: StdioClient :: exit_stack p /\
    stdout (connect path p) =
      [(newline ++ "Connected to server with tools:" ++ " "
          ++ names_str (map tool_name tools) ++ newline)%string].
Proof.
  destruct (endswith path ".py" || endswith path ".js")%bool eqn:Hsuffix.
  - rewrite (connect_to_server_steps path p Hsuffix) in *. cbv zeta in *.
    destruct (enter_stdio_client host _ _) as [[e|[]] w1]; [discriminate|].
    destruct (enter_client_session host w1) as [[e|[]] w2]; [discriminate|].
    destruct (session_initialize host w2) as [[e|[]] w3]; [discriminate|].
    destruct (list_tools remote w3) as [[e|tools] w4]; [discriminate|].
    now eexists _, tools.
  - rewrite (connect_to_server_rejects path p Hsuffix) in Hok. discriminate.
Qed.

(** The exits of a stack, whatever exception is in flight. *)
Lemma run_exit_callbacks_exits stack :
  forall exc pending w,
    let '(exc', pending', _, evs) := run_exit_callbacks host stack exc pending w in
    exited (evs : list Sys) = stack /\ entered evs = [] /\ launches evs = [] /\
    (pending' = true ->
     pending = true /\ exc' = exc \/ exists e, exc' = Some e /\ In e (exit_raises evs)).
Proof.
  induction stack as [|c stack IH]; intros exc pending w; cbn [run_exit_callbacks].
  - repeat split. intros ->. now left.
  - destruct (exit_context host c exc w) as [r w'].
    destruct r as [e|[|]].
    + specialize (IH (Some e) true w').
      destruct (run_exit_callbacks host stack (Some e) true w')
        as [[[exc' pending'] w''] evs].
      destruct IH as (Hex & He & Hl & Hp). cbn. rewrite Hex. repeat split; auto.
      intros Hp'. right. destruct (Hp Hp') as [[_ ->]|(e' & -> & Hin)].
      * exists e. split; [reflexivity|now left].
      * exists e'. split; [reflexivity|now right].
    + specialize (IH None false w').
      destruct (run_exit_callbacks host stack None false w')
        as [[[exc' pending'] w''] evs].
      destruct IH as (Hex & He & Hl & Hp). cbn. rewrite Hex. repeat split; auto.
      intros Hp'. right. destruct (Hp Hp') as [[Hf _]|(e' & -> & Hin)];
        [discriminate|].
      now exists e'.
    + specialize (IH exc pending w').
      destruct (run_exit_callbacks host stack exc pending w')
        as [[[exc' pending'] w''] evs].
      destruct IH as (Hex & He & Hl & Hp). cbn. rewrite Hex. repeat split; auto.
Qed.

(** X13: [cleanup] exits every context on the exit stack exactly once,
    the last entered first, also when an exit raises; it leaves the stack
    empty, so that a second [cleanup] calls nothing and returns; and an
    exception it raises is one an exit raised. *)
Theorem cleanup_exits_everything_once p :
  let c := clean_up p in
  exited (log c) = exit_stack p /\
  exit_stack (proc c) = [] /\
  clean_up (proc c) = mkResult (inr tt) (proc c) [] [] /\
  match sys_result c with
  | inl e => In e (exit_raises (log c))
  | inr _ => True
  end.
Proof.
  cbv zeta. unfold cleanup.
  pose proof (run_exit_callbacks_exits (exit_stack p) None false (proc_world p)) as H.
  destruct (run_exit_callbacks host (exit_stack p) None false (proc_world p))
    as [[[exc pending] w'] evs].
  destruct H as (Hex & _ & _ & Hp). cbn. repeat split; auto.
  destruct exc as [e|]; [|exact I]. destruct pending; [|exact I].
  destruct (Hp eq_refl) as [[Hf _]|(e' & [= ->] & Hin)]; [discriminate|assumption].
Qed.

(** What the calls of [connect_to_server] and of [cleanup] enter, exit
    and launch. *)
Lemma connect_log_facts path p :
  exited (log (connect path p)) = [] /\
  exit_stack (proc (connect path p)) =
    rev (entered (log (connect path p))) ++ exit_stack p /\
  (launches (log (connect path p)) = [] \/
   (endswith path ".py" || endswith path ".js")%bool = true /\
   launches (log (connect path p)) =
     [mkStdioServerParameters
        (if endswith path ".py" then "python" else "node") [path] None]).
Proof.
  destruct (endswith path ".py" || endswith path ".js")%bool eqn:Hok.
  - split; [|split; [|right; split; [reflexivity|now apply launches_of_steps]]];
      rewrite (connect_to_server_steps path p Hok); cbv zeta;
      destruct (enter_stdio_client host _ _) as [[e|u1] w1]; try reflexivity;
      destruct (enter_client_session host w1) as [[e|u2] w2]; try reflexivity;
      destruct (session_initialize host w2) as [[e|u3] w3]; try reflexivity;
      destruct (list_tools remote w3) as [[e|tools] w4]; reflexivity.
  - rewrite (connect_to_server_rejects path p Hok). cbn. auto.
Qed.

Lemma cleanup_log_facts p :
  let c := clean_up p in
  exited (log c) = exit_stack p /\ entered (log c) = [] /\
  launches (log c) = [] /\ exit_stack (proc c) = [].
Proof.
  cbv zeta. unfold cleanup.
  pose proof (run_exit_callbacks_exits (exit_stack p) None false (proc_world p)) as H.
  destruct (run_exit_callbacks host (exit_stack p) None false (proc_world p))
    as [[[exc pending] w'] evs].
  destruct H as (Hex & Hen & Hl & _). cbn. auto.
Qed.

Lemma entered_app (evs evs' : list Sys) :
  entered (evs ++ evs') = entered evs ++ entered evs'.
Proof.
  induction evs as [|[?|? [?|?]|[?|?]|?|?|? ? ?] evs IH]; cbn; auto.
  - now rewrite IH.
  - now rewrite IH.
Qed.

Lemma exited_app (evs evs' : list Sys) :
  exited (evs ++ evs') = exited evs ++ exited evs'.
Proof.
  induction evs as [|[?|? ?|?|?|?|? ? ?] evs IH]; cbn; auto. now rewrite IH.
Qed.

Lemma launches_app (evs evs' : list Sys) :
  launches (evs ++ evs') = launches evs ++ launches evs'.
Proof.
  induction evs as [|[?|? ?|?|?|?|? ? ?] evs IH]; cbn; auto. now rewrite IH.
Qed.

Lemma session_events_hold_no_context (evs : list (Event ToolInput Content Schema)) :
  entered (map SysSession evs : list Sys) = [] /\
  exited (map SysSession evs : list Sys) = [] /\
  launches (map SysSession evs : list Sys) = [].
Proof. induction evs as [|ev evs IH]; cbn; auto. Qed.

(** ** The turns of the chat loop *)

Lemma turns_at_eof n w :
  turns n [] w = mkTurns false (List.concat (repeat [prompt; eof_line] n)) w [].
Proof.
  induction n as [|n IH]; [reflexivity|].
  cbn [chat_loop_turns]. rewrite IH. reflexivity.
Qed.

Lemma turns_without_quit stdin :
  Forall (fun line => lower (strip line) <> "quit") stdin ->
  forall fuel w, ended (turns fuel stdin w) = false.
Proof.
  induction 1 as [|line stdin Hline _ IH]; intros fuel w.
  - now rewrite turns_at_eof.
  - destruct fuel as [|fuel]; [reflexivity|]. cbn [chat_loop_turns].
    rewrite (chat_turn_query _ _ _ _ Hline). cbv zeta. cbn [ended]. apply IH.
Qed.

Lemma turns_until_quit before :
  forall q after fuel w,
    lower (strip q) = "quit" ->
    List.length before < fuel ->
    ended (turns fuel (before ++ q :: after) w) = true.
Proof.
  induction before as [|b before IH]; intros q after fuel w Hq Hfuel;
    (destruct fuel as [|fuel]; [cbn in Hfuel; lia|]); cbn [app chat_loop_turns].
  - unfold chat_turn. rewrite Hq. reflexivity.
  - destruct (chat_turn input_str remote (strip b) w) as [[[|line] w'] evs];
      [reflexivity|].
    cbn [ended]. apply IH; [assumption|]. cbn in Hfuel. lia.
Qed.

Lemma turns_past_the_input stdin :
  Forall (fun line => lower (strip line) <> "quit") stdin ->
  forall n w,
    let t := turns (List.length stdin) stdin w in
    turns (List.length stdin + n) stdin w =
    mkTurns false (written t ++ List.concat (repeat [prompt; eof_line] n))
      (turns_world t) (turns_events t).
Proof.
  induction 1 as [|line stdin Hline _ IH]; intros n w; cbv zeta.
  - cbn [List.length Nat.add]. now rewrite turns_at_eof.
  - cbn [List.length Nat.add chat_loop_turns].
    rewrite (chat_turn_query _ _ _ _ Hline). cbv zeta. rewrite IH. reflexivity.
Qed.

(** X14: the chat loop is left by a quit line only.  On an input without
    one it is never left, whatever the number of turns; and once the input
    is at its end every further turn writes the prompt and
    "Error: EOF when reading a line", calls nothing and changes nothing:
    the end of the input does not end the loop. *)
Theorem chat_loop_is_left_by_quit_only stdin
    (Hlines : Forall (fun line => lower (strip line) <> "quit") stdin) :
  (forall fuel w, ended (turns fuel stdin w) = false) /\
  (forall n w,
     let t := turns (List.length stdin) stdin w in
     let t' := turns (List.length stdin + n) stdin w in
     written t' =
       written t ++
       List.concat (repeat [prompt;
                       (newline ++ "Error: EOF when reading a line" ++ newline)%string]
                 n) /\
     turns_world t' = turns_world t /\
     turns_events t' = turns_events t).
Proof.
  split.
  - now apply turns_without_quit.
  - intros n w. cbv zeta. rewrite (turns_past_the_input stdin Hlines n w).
    cbv zeta. now repeat split.
Qed.

(** ** main *)

(** The two lines [chat_loop] opens with. *)
Lemma chat_loop_io_unfold fuel stdin p :
  chat_loop_io input_str strip remote fuel stdin p =
  let t := turns fuel stdin (proc_world p) in
  mkResult (inr (ended t)) (mkProc (turns_world t) (exit_stack p))
    (map SysSession (turns_events t))
    ((newline ++ "MCP Client Started!" ++ newline)%string
       :: ("Type your queries or 'quit' to exit." ++ newline)%string
       :: written t).
Proof.
  unfold chat_loop_io, pbind, print. cbn. reflexivity.
Qed.

Lemma connect_then_chat path fuel stdin p :
  pbind (connect path) (fun _ => chat_loop_io input_str strip remote fuel stdin) p =
  let c0 := connect path p in
  match sys_result c0 with
  | inl e => mkResult (inl e) (proc c0) (log c0) (stdout c0)
  | inr _ =>
      let io := chat_loop_io input_str strip remote fuel stdin (proc c0) in
      mkResult (sys_result io) (proc io) (log c0 ++ log io) (stdout c0 ++ stdout io)
  end.
Proof. reflexivity. Qed.

(** [main] once the client is built, by what [connect_to_server] and the
    chat loop did. *)
Lemma main_unfold argv fuel stdin w u w0 :
  2 <= List.length argv ->
  new_anthropic host w = (inr u, w0) ->
  let c0 := connect (nth 1 argv "") (mkProc w0 []) in
  run_main argv fuel stdin w =
  match sys_result c0 with
  | inl e =>
      let c := clean_up (proc c0) in
      mkMainRun
        (match sys_result c with inl e' => Raised e' | inr _ => Raised e end)
        (proc c) (SysAnthropic (inr u) :: log c0 ++ log c) (stdout c0 ++ stdout c)
  | inr _ =>
      let io := chat_loop_io input_str strip remote fuel stdin (proc c0) in
      let t := turns fuel stdin (proc_world (proc c0)) in
      if ended t
      then
        let c := clean_up (proc io) in
        mkMainRun
          (match sys_result c with inl e' => Raised e' | inr _ => Returned end)
          (proc c)
          (SysAnthropic (inr u) :: (log c0 ++ log io) ++ log c)
          ((stdout c0 ++ stdout io) ++ stdout c)
      else
        mkMainRun Running (proc io)
          (SysAnthropic (inr u) :: log c0 ++ log io) (stdout c0 ++ stdout io)
  end.
Proof.
  intros Hargv Hnew. cbv zeta. unfold main.
  destruct (Nat.ltb_spec (List.length argv) 2) as [Hlt|_]; [lia|].
  rewrite Hnew, connect_then_chat. cbv zeta.
  destruct (sys_result (connect (nth 1 argv "") (mkProc w0 []))) as [e|[]].
  - cbn [sys_result proc log stdout].
    destruct (sys_result (clean_up _)); reflexivity.
  - cbn [sys_result proc log stdout]. rewrite chat_loop_io_unfold. cbv zeta.
    cbn [sys_result proc log stdout].
    destruct (ended (turns fuel stdin _)); [|reflexivity].
    destruct (sys_result (clean_up _)); reflexivity.
Qed.

(** What [main] enters, exits and launches. *)
Lemma main_log_facts argv fuel stdin w :
  let m := run_main argv fuel stdin w in
  (status m <> Running ->
   exited (main_log m) = rev (entered (main_log m)) /\
   exit_stack (main_proc m) = []) /\
  (status m = Running -> exited (main_log m) = []) /\
  (launches (main_log m) = [] \/
   2 <= List.length argv /\
   (endswith (nth 1 argv "") ".py" || endswith (nth 1 argv "") ".js")%bool = true /\
   launches (main_log m) =
     [mkStdioServerParameters
        (if endswith (nth 1 argv "") ".py" then "python" else "node")
        [nth 1 argv ""] None]).
Proof.
  cbv zeta.
  destruct (Nat.ltb_spec (List.length argv) 2) as [Hlt|Hge].
  { unfold main. destruct (Nat.ltb_spec (List.length argv) 2); [|lia].
    cbn. repeat split; auto. }
  destruct (new_anthropic host w) as [[e|u] w0] eqn:Hnew.
  { unfold main. destruct (Nat.ltb_spec (List.length argv) 2); [lia|].
    rewrite Hnew. cbn. repeat split; auto. }
  rewrite (main_unfold argv fuel stdin w u w0 Hge Hnew). cbv zeta.
  destruct (connect_log_facts (nth 1 argv "") (mkProc w0 []))
    as (Hex0 & Hstack0 & Hlaunch0).
  cbn [exit_stack] in Hstack0. rewrite app_nil_r in Hstack0.
  assert (Hlaunch :
    forall evs : list Sys, launches evs = [] ->
      launches (log (connect (nth 1 argv "") (mkProc w0 [])) ++ evs) = [] \/
      2 <= List.length argv /\
      (endswith (nth 1 argv "") ".py" || endswith (nth 1 argv "") ".js")%bool = true /\
      launches (log (connect (nth 1 argv "") (mkProc w0 [])) ++ evs) =
        [mkStdioServerParameters
           (if endswith (nth 1 argv "") ".py" then "python" else "node")
           [nth 1 argv ""] None]).
  { intros evs Hevs. rewrite launches_app, Hevs, app_nil_r.
    destruct Hlaunch0 as [H|[Hok H]]; auto. }
  destruct (sys_result (connect (nth 1 argv "") (mkProc w0 []))) as [e|[]].
  - destruct (cleanup_log_facts (proc (connect (nth 1 argv "") (mkProc w0 []))))
      as (Hex & Hen & Hl & Hst).
    cbn [status main_log main_proc]. split; [|split].
    + intros _. split; [|exact Hst]. cbn [exited entered].
      rewrite exited_app, entered_app, Hex0, Hex, Hen, Hstack0, app_nil_r.
      reflexivity.
    + destruct (sys_result (clean_up _)); discriminate.
    + cbn [launches]. now apply Hlaunch.
  - rewrite chat_loop_io_unfold. cbv zeta. cbn [proc log stdout].
    destruct (session_events_hold_no_context
                (turns_events (turns fuel stdin
                   (proc_world (proc (connect (nth 1 argv "") (mkProc w0 []))))))
             ) as (Hen1 & Hex1 & Hl1).
    destruct (ended (turns fuel stdin _)).
    + match goal with
      | |- context [clean_up ?q] =>
          destruct (cleanup_log_facts q) as (Hex & Hen & Hl & Hst)
      end.
      cbn [exit_stack] in Hex.
      cbn [status main_log main_proc]. split; [|split].
      * intros _. split; [|exact Hst]. cbn [exited entered].
        rewrite !exited_app, !entered_app, Hex0, Hex1, Hen1, Hex, Hen, Hstack0,
          !app_nil_r.
        reflexivity.
      * destruct (sys_result (clean_up _)); discriminate.
      * cbn [launches]. rewrite <- app_assoc. apply Hlaunch.
        now rewrite launches_app, Hl1, Hl.
    + cbn [status main_log main_proc]. split; [|split].
      * intros H. now destruct H.
      * intros _. cbn [exited]. now rewrite exited_app, Hex0, Hex1.
      * cbn [launches]. now apply Hlaunch.
Qed.

(** X15: [main] launches at most one server, and only the script named
    by its first argument: any launch is with [python] and a path that
    ends in .py, or with [node] and a path that ends in .js, the path
    being [argv[1]], the only argument passed on, and no environment. *)
Theorem main_launches_the_script_only argv fuel stdin w params
    (Hlaunched : In params (launches (main_log (run_main argv fuel stdin w)))) :
  launches (main_log (run_main argv fuel stdin w)) = [params] /\
  2 <= List.length argv /\
  args params = [nth 1 argv ""] /\
  env params = None /\
  (command params = "python" /\
     (exists stem, nth 1 argv "" = (stem ++ ".py")%string) \/
   command params = "node" /\
     (exists stem, nth 1 argv "" = (stem ++ ".js")%string)).
Proof.
  destruct (main_log_facts argv fuel stdin w) as (_ & _ & [Hnone|(Hargv & Hok & Hone)]).
  { rewrite Hnone in Hlaunched. destruct Hlaunched. }
  rewrite Hone in *. destruct Hlaunched as [<-|[]]. cbn [args env command].
  repeat split; auto.
  destruct (endswith (nth 1 argv "") ".py") eqn:Epy.
  - left. split; [reflexivity|]. now apply endswith_spec.
  - right. split; [reflexivity|]. cbn in Hok. now apply endswith_spec.
Qed.

(** X16: [main] leaves no context open when it ends: whether it returns,
    or raises because the path was refused, a step of startup failed or an
    exit raised, every context it entered has been exited exactly once, in
    the reverse order of entering, and the exit stack is empty.  While the
    chat loop is still running nothing has been exited. *)
Theorem main_exits_what_it_entered argv fuel stdin w :
  let m := run_main argv fuel stdin w in
  match status m with
  | Running => exited (main_log m) = []
  | _ =>
      exited (main_log m) = rev (entered (main_log m)) /\
      exit_stack (main_proc m) = []
  end.
Proof.
  cbv zeta.
  destruct (main_log_facts argv fuel stdin w) as (Hended & Hrunning & _).
  destruct (status (run_main argv fuel stdin w)) eqn:Hs;
    try (apply Hended; discriminate).
  now apply Hrunning.
Qed.

(** X17: a quit line ends [main]: when the input holds a line that strips
    and lowers to quit, [main] has ended as soon as it is given more turns
    than there are lines before it, whatever the arguments, the queries
    and the collaborators did. *)
Theorem main_ends_after_quit argv before q after fuel w
    (Hquit : lower (strip q) = "quit")
    (Hfuel : List.length before < fuel) :
  status (run_main argv fuel (before ++ q :: after) w) <> Running.
Proof.
  destruct (Nat.ltb_spec (List.length argv) 2) as [Hlt|Hge].
  { unfold main. destruct (Nat.ltb_spec (List.length argv) 2); [|lia].
    discriminate. }
  destruct (new_anthropic host w) as [[e|u] w0] eqn:Hnew.
  { unfold main. destruct (Nat.ltb_spec (List.length argv) 2); [lia|].
    rewrite Hnew. discriminate. }
  rewrite (main_unfold argv fuel _ w u w0 Hge Hnew). cbv zeta.
  destruct (sys_result (connect (nth 1 argv "") (mkProc w0 []))) as [e|[]].
  - cbn [status]. destruct (sys_result (clean_up _)); discriminate.
  - rewrite (turns_until_quit before q after fuel _ Hquit Hfuel).
    cbn [status]. destruct (sys_result (clean_up _)); discriminate.
Qed.

(** X18: [main] returns only after a quit line: on an input without one,
    the end of the input included, it never returns, whatever the number
    of turns; it is still in the chat loop, or it has failed before it. *)
Theorem main_returns_only_after_quit argv fuel stdin w
    (Hlines : Forall (fun line => lower (strip line) <> "quit") stdin) :
  status (run_main argv fuel stdin w) <> Returned.
Proof.
  destruct (Nat.ltb_spec (List.length argv) 2) as [Hlt|Hge].
  { unfold main. destruct (Nat.ltb_spec (List.length argv) 2); [|lia].
    discriminate. }
  destruct (new_anthropic host w) as [[e|u] w0] eqn:Hnew.
  { unfold main. destruct (Nat.ltb_spec (List.length argv) 2); [lia|].
    rewrite Hnew. discriminate. }
  rewrite (main_unfold argv fuel _ w u w0 Hge Hnew). cbv zeta.
  destruct (sys_result (connect (nth 1 argv "") (mkProc w0 []))) as [e|[]].
  - cbn [status]. destruct (sys_result (clean_up _)); discriminate.
  - rewrite (turns_without_quit stdin Hlines). discriminate.
Qed.

End LifecycleFacts.

(** * The claims on concrete runs *)

Section Examples.

Import Mock.

(** C1 fails as stated, twice over: the first response asks for [add]
    and [mul], and [mul] is called only after the model has been called
    again with the result of [add]; the response to that call asks for
    [ghost], which is never called, though the query returns its answer. *)
Lemma tool_uses_not_dispatched_before_next_call :
  let r := process_query input_str (scripted add_catalog any_tool)
             "Add 2 and 3, multiply 5 and 4" MockHost.add_and_mul in
  let query := mkMessage user (MsgText "Add 2 and 3, multiply 5 and 4") in
  events r =
    [EvListTools (inr [mkTool "add" (Some "Add two numbers") tt]);
     EvCreate
       (first_request "Add 2 and 3, multiply 5 and 4"
          [mkTool "add" (Some "Add two numbers") tt])
       (inr (mkResponse [add_call; mul_call]));
     EvCallTool "add" "{'a': 2, 'b': 3}" (inr (mkCallToolResult "ran add" false));
     EvCreate
       (continuation_request [query; tool_result_message "ran add"])
       (inr (mkResponse [TextBlock "The sum is 5"; ghost_call]));
     EvCallTool "mul" "{'a': 5, 'b': 4}" (inr (mkCallToolResult "ran mul" false));
     EvCreate
       (continuation_request
          [query; tool_result_message "ran add"; tool_result_message "ran mul"])
       (inr (mkResponse [TextBlock "The product is 20"]))] /\
  outcome r =
    inr (join newline
           ["[Calling tool add with args {'a': 2, 'b': 3}]"; "The sum is 5";
            "[Calling tool mul with args {'a': 5, 'b': 4}]"; "The product is 20"]) /\
  tool_uses_observed (events r) =
    [("add", "{'a': 2, 'b': 3}"); ("mul", "{'a': 5, 'b': 4}"); ("ghost", "{}")] /\
  tool_calls (events r) = [("add", "{'a': 2, 'b': 3}"); ("mul", "{'a': 5, 'b': 4}")] /\
  tool_calls (events r) <> tool_uses_observed (events r).
Proof. vm_compute. repeat split. discriminate. Qed.

(** The rounds of a first response with two tool_use blocks. *)
Lemma first_response_tool_uses_dispatched_witness :
  let run := process_query input_str (scripted add_catalog any_tool)
               "Add 2 and 3, multiply 5 and 4" MockHost.add_and_mul in
  let answer :=
    join newline
      ["[Calling tool add with args {'a': 2, 'b': 3}]"; "The sum is 5";
       "[Calling tool mul with args {'a': 5, 'b': 4}]"; "The product is 20"] in
  outcome run = inr answer /\
  exists tools first evs l,
    events run =
      EvListTools (inr tools)
        :: EvCreate (first_request "Add 2 and 3, multiply 5 and 4" tools) (inr first)
        :: evs /\
    outcome (process_query_loop input_str (scripted add_catalog any_tool)
               "Add 2 and 3, multiply 5 and 4" MockHost.add_and_mul) = inr l /\
    Rounds [mkMessage user (MsgText "Add 2 and 3, multiply 5 and 4")]
      (resp_content first) evs (messages l) /\
    tool_calls evs = tool_uses (resp_content first).
Proof.
  cbv zeta. split; [reflexivity|].
  apply (first_response_tool_uses_dispatched input_str
           (scripted add_catalog any_tool)
           "Add 2 and 3, multiply 5 and 4" MockHost.add_and_mul
           (join newline
              ["[Calling tool add with args {'a': 2, 'b': 3}]"; "The sum is 5";
               "[Calling tool mul with args {'a': 5, 'b': 4}]";
               "The product is 20"])).
  reflexivity.
Defined.

(** C2 fails as stated: a model that never answers in text alone does not
    make the query fail with TurnLimitExceeded: the query returns. *)
Lemma no_turn_limit_exceeded :
  let r := process_query input_str insatiable "go" tt in
  (forall req w, exists resp,
      messages_create insatiable req w = (inr resp, w) /\
      tool_uses (resp_content resp) <> []) /\
  outcome r =
    inr (join newline ["one more"; "[Calling tool step with args {}]"; "one more"]) /\
  ~ fails_with "TurnLimitExceeded" (outcome r).
Proof.
  cbv zeta. split; [|split].
  - intros req w. eexists. split; [reflexivity|]. discriminate.
  - reflexivity.
  - intros (e & He & _). vm_compute in He. discriminate.
Qed.

(** C3 fails as stated: with two text blocks the answer is not their
    concatenation, a newline stands between them. *)
Lemma answer_is_not_concatenation :
  let r := process_query input_str (scripted add_catalog add_tool)
             "What is 2+2?" two_texts in
  tool_uses (first_content (events r)) = [] /\
  outcome r = inr (join newline ["2+2"; "is 4"]) /\
  outcome r <> inr ("2+2" ++ "is 4")%string.
Proof. vm_compute. repeat split. discriminate. Qed.

(** "What is 2+2?" with an empty catalog: one round, no tool call. *)
Lemma no_tool_use_single_round_witness :
  list_tools (scripted (inr []) add_tool) two_texts = (inr [], two_texts) /\
  messages_create (scripted (inr []) add_tool)
    (first_request "What is 2+2?" []) two_texts =
    (inr (mkResponse [TextBlock "2+2"; TextBlock "is 4"]), []) /\
  tool_uses [TextBlock "2+2"; TextBlock "is 4"] = @nil (string * string) /\
  process_query input_str (scripted (inr []) add_tool) "What is 2+2?" two_texts =
    mkRun (inr (join newline ["2+2"; "is 4"])) []
      [EvListTools (inr []);
       EvCreate (first_request "What is 2+2?" [])
         (inr (mkResponse [TextBlock "2+2"; TextBlock "is 4"]))].
Proof.
  repeat (split; [reflexivity|]).
  apply (no_tool_use_single_round input_str (scripted (inr []) add_tool)
           "What is 2+2?" two_texts [] two_texts
           (mkResponse [TextBlock "2+2"; TextBlock "is 4"]) []);
    reflexivity.
Defined.

(** [list_tools] fails on the first line read; the second is answered. *)
Lemma chat_loop_answers_every_query_witness :
  Forall (fun q => lower q <> "quit") (["Which tools?"] ++ ["What is 2+2?"]) /\
  let w0 := world_after input_str flaky ["Which tools?"] 0 in
  let r := process_query input_str flaky "What is 2+2?" w0 in
  nth_error
    (lines_printed input_str flaky (["Which tools?"] ++ "What is 2+2?" :: ["QUIT"]) 0)
    (List.length ["Which tools?"]) = Some (printed_for (outcome r)) /\
  world_after input_str flaky (["Which tools?"] ++ "What is 2+2?" :: ["QUIT"]) 0 =
    world_after input_str flaky ["QUIT"] (world r) /\
  (forall e w1,
     list_tools flaky w0 = (inl e, w1) ->
     events r = [EvListTools (inl e)] /\
     printed_for (outcome r) = (newline ++ "Error: " ++ exn_str e)%string).
Proof.
  assert (H : Forall (fun q => lower q <> "quit")
                (["Which tools?"] ++ ["What is 2+2?"])).
  { repeat constructor; vm_compute; discriminate. }
  split; [exact H|].
  exact (chat_loop_answers_every_query input_str flaky
           ["Which tools?"] "What is 2+2?" ["QUIT"] 0 H).
Defined.

(** C5 fails as stated: the tool server reports the failure of [add] in
    the result it returns, with [isError] set; the query does not end
    there: the result goes to the model, which is called a second time,
    and the line printed is the answer, not an error. *)
Lemma flagged_tool_result_does_not_end_query :
  let r := process_query input_str (scripted add_catalog MockHost.flagged_tool)
             "Add 2 and 3" MockHost.add_then_comment in
  let query := mkMessage user (MsgText "Add 2 and 3") in
  events r =
    [EvListTools (inr [mkTool "add" (Some "Add two numbers") tt]);
     EvCreate
       (first_request "Add 2 and 3" [mkTool "add" (Some "Add two numbers") tt])
       (inr (mkResponse [add_call]));
     EvCallTool "add" "{'a': 2, 'b': 3}"
       (inr (mkCallToolResult "Error executing tool add" true));
     EvCreate
       (continuation_request [query; tool_result_message "Error executing tool add"])
       (inr (mkResponse [TextBlock "The tool reported an error"]))] /\
  List.length (llm_calls (events r)) = 2 /\
  outcome r =
    inr (join newline
           ["[Calling tool add with args {'a': 2, 'b': 3}]";
            "The tool reported an error"]) /\
  fst (fst (chat_turn input_str (scripted add_catalog MockHost.flagged_tool)
              "Add 2 and 3" MockHost.add_then_comment)) =
    Printed (newline
             ++ join newline
                  ["[Calling tool add with args {'a': 2, 'b': 3}]";
                   "The tool reported an error"])%string.
Proof. vm_compute. repeat split. Qed.

(** The tool [boom] raises: the query ends there, with the error line. *)
Lemma tool_failure_ends_query_only_when_raised_witness :
  let r := process_query input_str (scripted add_catalog add_tool)
             "What is 2+2?" boom_then_add in
  lower "What is 2+2?" <> "quit" /\
  In (EvCallTool "boom" "{}" (inl (mkExn "ToolExecutionError" "tool failed: boom")))
     (events r) /\
  outcome r = inl (mkExn "ToolExecutionError" "tool failed: boom") /\
  (exists before,
     events r =
       before ++
       [EvCallTool "boom" "{}" (inl (mkExn "ToolExecutionError" "tool failed: boom"))] /\
     Forall came_back before) /\
  fst (fst (chat_turn input_str (scripted add_catalog add_tool)
              "What is 2+2?" boom_then_add)) =
    Printed (newline ++ "Error: " ++ "tool failed: boom")%string.
Proof.
  assert (Hq : lower "What is 2+2?" <> "quit") by (vm_compute; discriminate).
  assert (Hin : In (EvCallTool "boom" "{}"
                      (inl (mkExn "ToolExecutionError" "tool failed: boom")))
                   (events (process_query input_str (scripted add_catalog add_tool)
                              "What is 2+2?" boom_then_add))).
  { vm_compute. right; right; left. reflexivity. }
  split; [exact Hq|]. split; [exact Hin|].
  exact (tool_failure_ends_query_only_when_raised input_str
           (scripted add_catalog add_tool)
           "What is 2+2?" boom_then_add "boom" "{}"
           (inl (mkExn "ToolExecutionError" "tool failed: boom")) Hq Hin).
Defined.

(** C6 fails as stated: [ghost] is not in the catalog, and the engine
    calls it all the same; no ToolNotFound ends the query. *)
Lemma tool_outside_catalog_is_called :
  let r := process_query input_str (scripted add_catalog any_tool)
             "What is 2+2?" asks_ghost in
  ~ In "ghost" (map tool_name [mkTool "add" (Some "Add two numbers") tt]) /\
  fst (list_tools (scripted add_catalog any_tool) asks_ghost) =
    inr [mkTool "add" (Some "Add two numbers") tt] /\
  In (EvCallTool "ghost" "{}" (inr (mkCallToolResult "ran ghost" false))) (events r) /\
  outcome r =
    inr (join newline
           ["Let me check"; "[Calling tool ghost with args {}]"; "Done"]) /\
  ~ fails_with "ToolNotFound" (outcome r).
Proof.
  cbv zeta. repeat split.
  - intros [H|[]]. discriminate H.
  - vm_compute. right; right; left. reflexivity.
  - intros (e & He & _). vm_compute in He. discriminate.
Qed.

(** The call of [ghost] follows the first [messages.create]. *)
Lemma tool_called_without_catalog_check_witness :
  list_tools (scripted add_catalog any_tool) asks_ghost =
    (inr [mkTool "add" (Some "Add two numbers") tt], asks_ghost) /\
  messages_create (scripted add_catalog any_tool)
    (first_request "What is 2+2?" [mkTool "add" (Some "Add two numbers") tt])
    asks_ghost =
    (inr (mkResponse [TextBlock "Let me check"; ghost_call]),
     [inr (mkResponse [TextBlock "Done"])]) /\
  resp_content (mkResponse [TextBlock "Let me check"; ghost_call]) =
    [TextBlock "Let me check"] ++ ToolUseBlock "toolu_3" "ghost" "{}" :: [] /\
  tool_uses [@TextBlock string "Let me check"] = [] /\
  exists evs,
    events (process_query input_str (scripted add_catalog any_tool)
              "What is 2+2?" asks_ghost) =
    EvListTools (inr [mkTool "add" (Some "Add two numbers") tt])
      :: EvCreate
           (first_request "What is 2+2?" [mkTool "add" (Some "Add two numbers") tt])
           (inr (mkResponse [TextBlock "Let me check"; ghost_call]))
      :: EvCallTool "ghost" "{}"
           (fst (call_tool (scripted add_catalog any_tool) "ghost" "{}"
                   [inr (mkResponse [TextBlock "Done"])]))
      :: evs.
Proof.
  repeat (split; [reflexivity|]).
  apply (tool_called_without_catalog_check input_str
           (scripted add_catalog any_tool) "What is 2+2?" asks_ghost
           [mkTool "add" (Some "Add two numbers") tt] asks_ghost
           (mkResponse [TextBlock "Let me check"; ghost_call])
           [inr (mkResponse [TextBlock "Done"])]
           [TextBlock "Let me check"] "toolu_3" "ghost" "{}" []);
    reflexivity.
Defined.

(** C8 fails as stated: the first response holds two tool_use blocks, the
    first tool call raises, and the query has made one [messages.create]
    and one [call_tool], not three and two. *)
Lemma failed_query_makes_fewer_calls :
  let r := process_query input_str (scripted add_catalog add_tool)
             "What is 2+2?" boom_then_add in
  let k := List.length (tool_uses (first_content (events r))) in
  k = 2 /\
  List.length (llm_calls (events r)) = 1 /\
  List.length (tool_calls (events r)) = 1 /\
  List.length (llm_calls (events r)) <> 1 + k /\
  List.length (tool_calls (events r)) <> k.
Proof. vm_compute. repeat split; discriminate. Qed.

(** The answer to "Add 2 and 3": the marker line, then the sum. *)
Lemma answer_is_joined_segments_witness :
  let r := process_query input_str adder "Add 2 and 3" 0 in
  outcome r =
    inr (join newline
           ["[Calling tool add with args {'a': 2, 'b': 3}]"; "The sum is 5"]) /\
  let segs := segments input_str (first_content (events r)) (continuations (events r)) in
  join newline ["[Calling tool add with args {'a': 2, 'b': 3}]"; "The sum is 5"] =
    join newline segs /\
  (forall name input,
     In (name, input) (tool_calls (events r)) ->
     In (calling_tool input_str name input) segs).
Proof.
  split; [reflexivity|].
  apply (answer_is_joined_segments input_str adder "Add 2 and 3" 0
           (join newline
              ["[Calling tool add with args {'a': 2, 'b': 3}]"; "The sum is 5"])).
  reflexivity.
Defined.

(** "Add 2 and 3" twice in a row on a pair that answers from the request. *)
Lemma same_query_twice_witness :
  deterministic adder /\
  let first := process_query_loop input_str adder "Add 2 and 3" 0 in
  let second := process_query_loop input_str adder "Add 2 and 3" (world first) in
  outcome (process_query input_str adder "Add 2 and 3" 0) =
    outcome (process_query input_str adder "Add 2 and 3" (world first)) /\
  events first = events second /\
  match outcome first, outcome second with
  | inr l1, inr l2 =>
      List.length (messages l1) = List.length (messages l2) /\
      roles (messages l1) = roles (messages l2)
  | inl e1, inl e2 => e1 = e2
  | _, _ => False
  end.
Proof.
  assert (H : deterministic adder) by (repeat split; intros; reflexivity).
  split; [exact H|].
  exact (same_query_twice input_str adder H "Add 2 and 3" 0).
Defined.

End Examples.

(** * Further properties on concrete runs *)

Section MoreExamples.

Import Mock MockHost.

(** The second request of "Add 2 and 3": the query, then the result 5. *)
Lemma history_is_query_then_tool_results_witness :
  let pre : list Ev :=
    [EvListTools (inr [mkTool "add" (Some "Add two numbers") tt]);
     EvCreate (first_request "Add 2 and 3" [mkTool "add" (Some "Add two numbers") tt])
       (inr (mkResponse [ToolUseBlock "toolu_1" "add" "{'a': 2, 'b': 3}"]));
     EvCallTool "add" "{'a': 2, 'b': 3}" (inr (mkCallToolResult "5" false))] in
  let req : Req :=
    continuation_request
      [mkMessage user (MsgText "Add 2 and 3"); mkMessage user (MsgToolResult "5")] in
  events (process_query input_str adder "Add 2 and 3" 0) =
    pre ++ EvCreate req (inr (mkResponse [TextBlock "The sum is 5"])) :: [] /\
  req_messages req =
    mkMessage user (MsgText "Add 2 and 3")
      :: map tool_result_message (tool_results pre) /\
  Forall (fun m => msg_role m = user) (req_messages req) /\
  List.length (req_messages req) = 1 + List.length (llm_calls pre).
Proof.
  cbv zeta. split; [reflexivity|].
  apply (history_is_query_then_tool_results input_str adder "Add 2 and 3" 0
           _ _ (inr (mkResponse [TextBlock "The sum is 5"])) []).
  reflexivity.
Defined.

(** [list_tools] raises: the query ends with its exception. *)
Lemma first_raise_ends_query_witness :
  let e := mkExn "ProtocolError" "malformed tools/list response" in
  let ev : Ev := EvListTools (inl e) in
  In ev (events (process_query input_str flaky "Which tools?" 0)) /\
  event_raised ev = Some e /\
  outcome (process_query input_str flaky "Which tools?" 0) = inl e /\
  exists before,
    events (process_query input_str flaky "Which tools?" 0) = before ++ [ev] /\
    Forall came_back before.
Proof.
  cbv zeta.
  assert (Hin : In (EvListTools (inl (mkExn "ProtocolError"
                                        "malformed tools/list response")) : Ev)
                   (events (process_query input_str flaky "Which tools?" 0))).
  { vm_compute. left. reflexivity. }
  split; [exact Hin|]. split; [reflexivity|].
  exact (first_raise_ends_query input_str flaky "Which tools?" 0 _ _ Hin eq_refl).
Defined.

(** The answer to the result of [add] begins with a tool_use block. *)
Lemma failure_without_remote_raise_witness :
  let r := process_query input_str (scripted add_catalog any_tool)
             "Add 2 and 3" add_then_only_mul in
  outcome r = inl (AttributeError "ToolUseBlock") /\
  Forall came_back (events r) /\
  exists before name input result req response,
    events r =
      before ++ [EvCallTool name input (inr result); EvCreate req (inr response)] /\
    req_tools req = None /\
    ((resp_content response = [] /\ AttributeError "ToolUseBlock" = IndexError) \/
     (exists b rest,
        resp_content response = b :: rest /\ block_text b = None /\
        AttributeError "ToolUseBlock" = AttributeError (block_class b))).
Proof.
  cbv zeta.
  assert (Hall : Forall came_back
                   (events (process_query input_str (scripted add_catalog any_tool)
                              "Add 2 and 3" add_then_only_mul))).
  { vm_compute. repeat constructor. }
  split; [reflexivity|]. split; [exact Hall|].
  exact (failure_without_remote_raise input_str (scripted add_catalog any_tool)
           "Add 2 and 3" add_then_only_mul _ eq_refl Hall).
Defined.

(** Two queries, the first of which fails: two calls of [list_tools]. *)
Lemma catalog_fetched_once_per_query_witness :
  Forall (fun q => lower q <> "quit") ["Which tools?"; "What is 2+2?"] /\
  list_tools_calls (calls_made input_str flaky ["Which tools?"; "What is 2+2?"] 0) = 2.
Proof.
  assert (H : Forall (fun q => lower q <> "quit") ["Which tools?"; "What is 2+2?"]).
  { repeat constructor; vm_compute; discriminate. }
  split; [exact H|].
  exact (catalog_fetched_once_per_query input_str flaky
           ["Which tools?"; "What is 2+2?"] 0 H).
Defined.

(** A query, QUIT, and a line that is never read. *)
Lemma nothing_runs_after_quit_witness :
  lower "QUIT" = "quit" /\
  chat_loop input_str adder (["Add 2 and 3"] ++ "QUIT" :: ["What is 2+2?"]) 0 =
  chat_loop input_str adder ["Add 2 and 3"] 0.
Proof.
  split; [reflexivity|].
  exact (nothing_runs_after_quit input_str adder
           ["Add 2 and 3"] "QUIT" ["What is 2+2?"] 0 eq_refl).
Defined.

(** A Ruby script is refused. *)
Lemma connect_refuses_other_scripts_witness :
  (forall stem, "server.rb" <> (stem ++ ".py")%string) /\
  (forall stem, "server.rb" <> (stem ++ ".js")%string) /\
  connect_to_server names_str adder (host true) "server.rb" (mkProc 0 []) =
  mkResult (inl (ValueError "Server script must be a .py or .js file"))
    (mkProc 0 []) [] [].
Proof.
  assert (Hpy : forall stem, "server.rb" <> (stem ++ ".py")%string).
  { intros stem H.
    assert (E : endswith "server.rb" ".py" = true)
      by (apply endswith_spec; now exists stem).
    vm_compute in E. discriminate E. }
  assert (Hjs : forall stem, "server.rb" <> (stem ++ ".js")%string).
  { intros stem H.
    assert (E : endswith "server.rb" ".js" = true)
      by (apply endswith_spec; now exists stem).
    vm_compute in E. discriminate E. }
  split; [exact Hpy|]. split; [exact Hjs|].
  exact (connect_refuses_other_scripts names_str adder (host true)
           "server.rb" (mkProc 0 []) Hpy Hjs).
Defined.

(** A Python server that starts: four steps, both contexts held. *)
Lemma connect_returns_after_all_steps_witness :
  let c := connect_to_server names_str adder (host true) "server.py" (mkProc 0 []) in
  sys_result c = inr tt /\
  exists params tools,
    log c =
      [SysEnterStdio params (inr tt); SysEnterSession (inr tt);
       SysInitialize (inr tt); SysSession (EvListTools (inr tools))] /\
    args params = ["server.py"] /\
    exit_stack (proc c) = ClientSessionContext :: StdioClient :: [] /\
    stdout c =
      [(newline ++ "Connected to server with tools:" ++ " "
          ++ names_str (map tool_name tools) ++ newline)%string].
Proof.
  cbv zeta. split; [reflexivity|].
  exact (connect_returns_after_all_steps names_str adder (host true)
           "server.py" (mkProc 0 []) eq_refl).
Defined.

(** One query and then the end of the input: two more turns, two more
    error lines. *)
Lemma chat_loop_is_left_by_quit_only_witness :
  Forall (fun line => lower (strip line) <> "quit") [" Add 2 and 3 "] /\
  (forall fuel w,
     ended (chat_loop_turns input_str strip adder fuel [" Add 2 and 3 "] w) = false) /\
  (forall n w,
     let t := chat_loop_turns input_str strip adder
                (List.length [" Add 2 and 3 "]) [" Add 2 and 3 "] w in
     let t' := chat_loop_turns input_str strip adder
                 (List.length [" Add 2 and 3 "] + n) [" Add 2 and 3 "] w in
     written t' =
       written t ++
       List.concat
         (repeat [prompt;
                  (newline ++ "Error: EOF when reading a line" ++ newline)%string]
            n) /\
     turns_world t' = turns_world t /\
     turns_events t' = turns_events t).
Proof.
  assert (H : Forall (fun line => lower (strip line) <> "quit") [" Add 2 and 3 "]).
  { repeat constructor; vm_compute; discriminate. }
  split; [exact H|].
  exact (chat_loop_is_left_by_quit_only input_str strip adder [" Add 2 and 3 "] H).
Defined.

(** [python server.py] is the one launch of [client.py server.py]. *)
Lemma main_launches_the_script_only_witness :
  let m := main input_str strip names_str adder (host true)
             ["client.py"; "server.py"] 5 ["quit"] 0 in
  let params := mkStdioServerParameters "python" ["server.py"] None in
  In params (launches (main_log m)) /\
  launches (main_log m) = [params] /\
  2 <= List.length ["client.py"; "server.py"] /\
  args params = [nth 1 ["client.py"; "server.py"] ""] /\
  env params = None /\
  (command params = "python" /\
     (exists stem, nth 1 ["client.py"; "server.py"] "" = (stem ++ ".py")%string) \/
   command params = "node" /\
     (exists stem, nth 1 ["client.py"; "server.py"] "" = (stem ++ ".js")%string)).
Proof.
  cbv zeta.
  assert (Hin : In (mkStdioServerParameters "python" ["server.py"] None)
                   (launches
                      (main_log
                         (main input_str strip names_str adder (host true)
                            ["client.py"; "server.py"] 5 ["quit"] 0)))).
  { vm_compute. left. reflexivity. }
  split; [exact Hin|].
  exact (main_launches_the_script_only input_str strip names_str adder (host true)
           ["client.py"; "server.py"] 5 ["quit"] 0 _ Hin).
Defined.

(** A query, a quit among blanks, and two turns. *)
Lemma main_ends_after_quit_witness :
  lower (strip "  QUIT ") = "quit" /\
  List.length ["Add 2 and 3"] < 2 /\
  status (main input_str strip names_str adder (host true)
            ["client.py"; "server.py"] 2
            (["Add 2 and 3"] ++ "  QUIT " :: ["What is 2+2?"]) 0) <> Running.
Proof.
  assert (Hfuel : List.length ["Add 2 and 3"] < 2) by (cbn; lia).
  split; [reflexivity|]. split; [exact Hfuel|].
  exact (main_ends_after_quit input_str strip names_str adder (host true)
           ["client.py"; "server.py"] ["Add 2 and 3"] "  QUIT " ["What is 2+2?"] 2 0
           eq_refl Hfuel).
Defined.

(** A query and the end of the input: after seven turns [main] has not
    returned. *)
Lemma main_returns_only_after_quit_witness :
  Forall (fun line => lower (strip line) <> "quit") ["Add 2 and 3"] /\
  status (main input_str strip names_str adder (host true)
            ["client.py"; "server.py"] 7 ["Add 2 and 3"] 0) <> Returned.
Proof.
  assert (H : Forall (fun line => lower (strip line) <> "quit") ["Add 2 and 3"]).
  { repeat constructor; vm_compute; discriminate. }
  split; [exact H|].
  exact (main_returns_only_after_quit input_str strip names_str adder (host true)
           ["client.py"; "server.py"] 7 ["Add 2 and 3"] 0 H).
Defined.

End MoreExamples.
